(** * fix-async.py: the async-qualifier rewriter

    A shallow embedding of [fix_async_functions] (src/fix-async.py) and the
    properties of its line scanner, brace counter and signature edit.

    Text is modelled as [string]: a sequence of 8-bit code points.  The
    character classes [\s] and [\w] are the ones Python's [re] uses for [str]
    patterns, restricted to code points below 256. *)

From Stdlib Require Import String Ascii List ZArith Lia Bool Arith.
Import ListNotations.

Local Open Scope string_scope.
Local Open Scope list_scope.

(* ================================================================== *)
(** ** String primitives used by the script *)

Module Str.

(** [s.count(c)] for a one-character [c], as an integer. *)
Fixpoint count_char (c : ascii) (s : string) : Z :=
  match s with
  | EmptyString => 0%Z
  | String a s' => ((if Ascii.eqb a c then 1 else 0) + count_char c s')%Z
  end.

(** [sub in s]. *)
Fixpoint contains (sub s : string) : bool :=
  String.prefix sub s ||
  match s with
  | EmptyString => false
  | String _ s' => contains sub s'
  end.

Fixpoint drop (n : nat) (s : string) : string :=
  match n, s with
  | O, _ => s
  | S _, EmptyString => EmptyString
  | S n', String _ s' => drop n' s'
  end.

(** [s.replace(old, new, 1)]: only the leftmost occurrence is replaced. *)
Fixpoint replace_first (old new s : string) : string :=
  if String.prefix old s then (new ++ drop (String.length old) s)%string
  else match s with
       | EmptyString => EmptyString
       | String a s' => String a (replace_first old new s')
       end.

(** [s.split(sep)] for a one-character separator: never the empty list. *)
Fixpoint split (sep : ascii) (s : string) : list string :=
  match s with
  | EmptyString => [EmptyString]
  | String a s' =>
      if Ascii.eqb a sep then EmptyString :: split sep s'
      else match split sep s' with
           | [] => [String a EmptyString]
           | l :: ls => String a l :: ls
           end
  end.

(** [sep.join(ls)]. *)
Fixpoint join (sep : string) (ls : list string) : string :=
  match ls with
  | [] => EmptyString
  | l :: ls' =>
      match ls' with
      | [] => l
      | _ :: _ => (l ++ sep ++ join sep ls')%string
      end
  end.

End Str.

Definition nl : ascii := "010"%char.
Definition nl_s : string := String nl EmptyString.
Definition tab : ascii := "009"%char.

(* ================================================================== *)
(** ** Regular expressions and [re.match] *)

Module Re.

(** Character sets that occur in [fn_pattern]. *)
Inductive cset : Type :=
| CChar (c : ascii)      (* a literal character *)
| CNot (c : ascii)       (* [^c] *)
| CSpace                 (* \s *)
| CWord.                 (* \w *)

Inductive re : Type :=
| Void
| Eps
| Atom (k : cset)
| Seq (a b : re)
| Alt (a b : re)
| Star (a : re).

Definition Opt (r : re) : re := Alt r Eps.        (* r? *)
Definition Plus (r : re) : re := Seq r (Star r).  (* r+ *)

Fixpoint Lit (s : string) : re :=
  match s with
  | EmptyString => Eps
  | String c s' => Seq (Atom (CChar c)) (Lit s')
  end.

Definition between (lo hi n : N) : bool := (lo <=? n)%N && (n <=? hi)%N.

(** [\s] on code points below 256: TAB..CR, FS..US, space, NEL, NBSP. *)
Definition is_space (c : ascii) : bool :=
  let n := N_of_ascii c in
  between 9 13 n || between 28 32 n || (n =? 133)%N || (n =? 160)%N.

(** [\w] on code points below 256: alphanumerics and the underscore. *)
Definition is_word (c : ascii) : bool :=
  let n := N_of_ascii c in
  between 48 57 n || between 65 90 n || (n =? 95)%N || between 97 122 n
  || (n =? 170)%N || (n =? 178)%N || (n =? 179)%N || (n =? 181)%N
  || (n =? 185)%N || (n =? 186)%N || between 188 190 n
  || between 192 214 n || between 216 246 n || between 248 255 n.

Definition in_cset (k : cset) (c : ascii) : bool :=
  match k with
  | CChar d => Ascii.eqb c d
  | CNot d => negb (Ascii.eqb c d)
  | CSpace => is_space c
  | CWord => is_word c
  end.

Fixpoint nullable (r : re) : bool :=
  match r with
  | Void => false
  | Eps => true
  | Atom _ => false
  | Seq a b => nullable a && nullable b
  | Alt a b => nullable a || nullable b
  | Star _ => true
  end.

Definition mkSeq (a b : re) : re :=
  match a, b with
  | Void, _ => Void
  | _, Void => Void
  | Eps, _ => b
  | _, _ => Seq a b
  end.

Definition mkAlt (a b : re) : re :=
  match a, b with
  | Void, _ => b
  | _, Void => a
  | _, _ => Alt a b
  end.

(** Brzozowski derivative. *)
Fixpoint deriv (c : ascii) (r : re) : re :=
  match r with
  | Void => Void
  | Eps => Void
  | Atom k => if in_cset k c then Eps else Void
  | Seq a b =>
      if nullable a then mkAlt (mkSeq (deriv c a) b) (deriv c b)
      else mkSeq (deriv c a) b
  | Alt a b => mkAlt (deriv c a) (deriv c b)
  | Star a => mkSeq (deriv c a) (Star a)
  end.

(** [re.match(r, s) is not None]: some prefix of [s] is in the language. *)
Fixpoint re_match (r : re) (s : string) : bool :=
  nullable r ||
  match s with
  | EmptyString => false
  | String c s' => re_match (deriv c r) s'
  end.

(** The words of a regular expression. *)
Inductive lang : re -> string -> Prop :=
| lang_eps : lang Eps EmptyString
| lang_atom k c : in_cset k c = true -> lang (Atom k) (String c EmptyString)
| lang_seq a b s t : lang a s -> lang b t -> lang (Seq a b) (s ++ t)%string
| lang_alt_l a b s : lang a s -> lang (Alt a b) s
| lang_alt_r a b s : lang b s -> lang (Alt a b) s
| lang_star_nil a : lang (Star a) EmptyString
| lang_star_cons a s t :
    lang a s -> lang (Star a) t -> lang (Star a) (s ++ t)%string.

End Re.

Import Re.

(** [fn_pattern], group by group as in the source: leading whitespace
    (group 1, zero or more of \s), the optional "pub" with one or more \s
    (group 2), the signature (group 3), then optional whitespace and the
    opening brace.  Group 3 is "fn", one or more \s, one or more \w, an
    optional generics clause "<" [^>]+ ">", the parameter list "(" [^)]
    repeated ")", and an optional return clause: \s repeated, "->", \s
    repeated, one or more [^{]. *)
Definition sig_generics : re :=
  Opt (Seq (Lit "<") (Seq (Plus (Atom (CNot ">"%char))) (Lit ">"))).
Definition sig_params : re :=
  Seq (Lit "(") (Seq (Star (Atom (CNot ")"%char))) (Lit ")")).
Definition sig_return : re :=
  Opt (Seq (Star (Atom CSpace))
      (Seq (Lit "->")
      (Seq (Star (Atom CSpace)) (Plus (Atom (CNot "{"%char)))))).
Definition sig_group3 : re :=
  Seq (Lit "fn")
 (Seq (Plus (Atom CSpace))
 (Seq (Plus (Atom CWord))
 (Seq sig_generics
 (Seq sig_params sig_return)))).
Definition fn_pattern : re :=
  Seq (Star (Atom CSpace))
 (Seq (Opt (Seq (Lit "pub") (Plus (Atom CSpace))))
 (Seq sig_group3
 (Seq (Star (Atom CSpace)) (Lit "{")))).

(** [re.match(fn_pattern, line)] as a truth value. *)
Definition is_fn_start (line : string) : bool := re_match fn_pattern line.

(** Every character of [s] belongs to [k]. *)
Fixpoint all_in (k : cset) (s : string) : bool :=
  match s with
  | EmptyString => true
  | String c s' => in_cset k c && all_in k s'
  end.

(** A run of whitespace, such as indentation. *)
Definition all_space (s : string) : bool := all_in CSpace s.

(* ================================================================== *)
(** ** The rewriter, as the script runs it *)

(** A run either finishes, raises Python's IndexError, or is cut short by
    the step budget of the model. *)
Inductive outcome (A : Type) : Type :=
| Done (a : A)
| IndexError
| OutOfFuel.
Arguments Done {A} a.
Arguments IndexError {A}.
Arguments OutOfFuel {A}.

Definition bind {A B : Type} (m : outcome A) (k : A -> outcome B) : outcome B :=
  match m with
  | Done a => k a
  | IndexError => IndexError
  | OutOfFuel => OutOfFuel
  end.

Notation "x <- m ;; k" := (bind m (fun x => k))
  (at level 61, m at next level, right associativity).
Notation "' p <- m ;; k" := (bind m (fun x => let p := x in k))
  (at level 61, p pattern, m at next level, right associativity).

(** [xs[i]]. *)
Definition index {A : Type} (xs : list A) (i : nat) : outcome A :=
  match nth_error xs i with
  | Some x => Done x
  | None => IndexError
  end.

(** [xs[0] = v]. *)
Definition assign_first {A : Type} (xs : list A) (v : A) : outcome (list A) :=
  match xs with
  | [] => IndexError
  | _ :: xs' => Done (v :: xs')
  end.

Definition await_marker : string := ".await".
Definition async_fn : string := "async fn".
Definition open_brace : ascii := "{"%char.
Definition close_brace : ascii := "}"%char.

(** Brace balance of one line: [l.count('{') - l.count('}')]. *)
Definition brace_delta (l : string) : Z :=
  (Str.count_char open_brace l - Str.count_char close_brace l)%Z.

(** State of the inner loop: [j], [brace_count], [fn_lines], [fn_body]. *)
Record span_state : Type := mk_span {
  sp_j : nat;
  sp_brace_count : Z;
  sp_fn_lines : list string;
  sp_fn_body : string
}.

(** The inner loop, lines 32-36:
    [while j < len(lines) and brace_count > 0]. *)
Fixpoint span_loop (fuel : nat) (lines : list string) (st : span_state)
  : outcome span_state :=
  match fuel with
  | O => OutOfFuel
  | S fuel' =>
      if (sp_j st <? length lines)%nat && (0 <? sp_brace_count st)%Z then
        lj <- index lines (sp_j st) ;;
        span_loop fuel' lines
          (mk_span (sp_j st + 1)
                   (sp_brace_count st + brace_delta lj)
                   (sp_fn_lines st ++ [lj])
                   (sp_fn_body st ++ lj ++ nl_s)%string)
      else Done st
  end.

(** Lines 38-43: the marker test and the edit of the signature line. *)
Definition qualify (line : string) (fn_lines : list string) (fn_body : string)
  : outcome (list string) :=
  if Str.contains await_marker fn_body then
    if negb (Str.contains async_fn line) then
      assign_first fn_lines (Str.replace_first "fn " "async fn " line)
    else Done fn_lines
  else Done fn_lines.

(** The outer loop, lines 16-49: [while i < len(lines)]. *)
Fixpoint main_loop (fuel : nat) (lines : list string) (i : nat)
  (result : list string) : outcome (list string) :=
  match fuel with
  | O => OutOfFuel
  | S fuel' =>
      if (i <? length lines)%nat then
        line <- index lines i ;;
        if is_fn_start line then
          st <- span_loop (S (length lines)) lines (mk_span (i + 1) 1 [line] "") ;;
          fn_lines <- qualify line (sp_fn_lines st) (sp_fn_body st) ;;
          main_loop fuel' lines (sp_j st) (result ++ fn_lines)
        else
          main_loop fuel' lines (i + 1) (result ++ [line])
      else Done result
  end.

(** [fix_async_functions(content)]. *)
Definition fix_async_functions (content : string) : outcome string :=
  let lines := Str.split nl content in
  result <- main_loop (S (length lines)) lines 0 [] ;;
  Done (Str.join nl_s result).

(* ================================================================== *)
(** ** The same computation on the unread suffix of [lines] *)

(** Running brace depth after the lines of [ls], starting from [d]. *)
Fixpoint depth_after (d : Z) (ls : list string) : Z :=
  match ls with
  | [] => d
  | l :: ls' => depth_after (d + brace_delta l) ls'
  end.

(** The inner loop on the lines from [j] on: the lines taken into the span
    and the lines left for the outer loop. *)
Fixpoint scan (brace_count : Z) (ls : list string) : list string * list string :=
  match ls with
  | [] => ([], [])
  | l :: ls' =>
      if (0 <? brace_count)%Z then
        let (body, rest) := scan (brace_count + brace_delta l) ls' in
        (l :: body, rest)
      else ([], ls)
  end.

(** The span end in the words of the specification: the index, among the
    lines after the signature, of the first line at which the running depth
    is exactly zero. *)
Fixpoint spec_span_end (d : Z) (ls : list string) : option nat :=
  match ls with
  | [] => None
  | l :: ls' =>
      if (d + brace_delta l =? 0)%Z then Some 0
      else option_map S (spec_span_end (d + brace_delta l) ls')
  end.

Definition span_body (rest : list string) : list string := fst (scan 1 rest).
Definition span_rest (rest : list string) : list string := snd (scan 1 rest).

(** [fn_body]: every body line followed by a newline. *)
Fixpoint body_text (body : list string) : string :=
  match body with
  | [] => EmptyString
  | l :: body' => (l ++ nl_s ++ body_text body')%string
  end.

(** The signature line written to the output for a span with body [body]. *)
Definition new_signature (line : string) (body : list string) : string :=
  if Str.contains await_marker (body_text body) then
    if negb (Str.contains async_fn line) then
      Str.replace_first "fn " "async fn " line
    else line
  else line.

Fixpoint process_fuel (fuel : nat) (ls : list string) : list string :=
  match fuel with
  | O => []
  | S fuel' =>
      match ls with
      | [] => []
      | line :: rest =>
          if is_fn_start line then
            new_signature line (span_body rest)
              :: span_body rest ++ process_fuel fuel' (span_rest rest)
          else line :: process_fuel fuel' rest
      end
  end.

Definition process (ls : list string) : list string :=
  process_fuel (length ls) ls.

(** The text-to-text function computed by a run that finishes. *)
Definition fix_async (content : string) : string :=
  Str.join nl_s (process (Str.split nl content)).

(** The positions the outer loop's cursor takes: [cursor ls suf] when the
    loop, started on [ls], tests the first line of [suf] (or ends there). *)
Inductive cursor : list string -> list string -> Prop :=
| cursor_here ls : cursor ls ls
| cursor_skip line rest suf :
    is_fn_start line = false -> cursor rest suf -> cursor (line :: rest) suf
| cursor_span line rest suf :
    is_fn_start line = true -> cursor (span_rest rest) suf ->
    cursor (line :: rest) suf.

(** No line taken into a span is itself a signature line. *)
Fixpoint no_nested_fuel (fuel : nat) (ls : list string) : bool :=
  match fuel with
  | O => true
  | S fuel' =>
      match ls with
      | [] => true
      | line :: rest =>
          if is_fn_start line then
            forallb (fun l => negb (is_fn_start l)) (span_body rest)
            && no_nested_fuel fuel' (span_rest rest)
          else no_nested_fuel fuel' rest
      end
  end.

Definition no_nested (ls : list string) : bool := no_nested_fuel (length ls) ls.


(* ================================================================== *)
(** ** Sample files *)

Module Samples.

Definition tab_s : string := String tab EmptyString.

(** The keyword is followed by a tab; no "fn " occurs in the line. *)
Definition tab_sig : string := ("fn" ++ tab_s ++ "f() {")%string.
Definition tab_file : list string := [tab_sig; "    x.await;"; "}"].

(** The keyword is followed by a tab and "fn " occurs in the return type. *)
Definition tab_ret_sig : string := ("fn" ++ tab_s ++ "f() -> fn () {")%string.
Definition tab_ret_file : list string := [tab_ret_sig; "    x.await;"; "}"].
Definition tab_ret_out : list string :=
  [("fn" ++ tab_s ++ "f() -> async fn () {")%string; "    x.await;"; "}"].

(** A function nested in a function; both bodies hold the marker. *)
Definition nested_file : list string :=
  ["fn outer() {"; "    x.await;"; "    fn inner() {"; "        y.await;";
   "    }"; "}"].
Definition nested_once : list string :=
  ["async fn outer() {"; "    x.await;"; "    fn inner() {"; "        y.await;";
   "    }"; "}"].
Definition nested_twice : list string :=
  ["async fn outer() {"; "    x.await;"; "    async fn inner() {";
   "        y.await;"; "    }"; "}"].

(** One function with the marker in its body. *)
Definition simple_file : list string := ["fn f() {"; "    x.await;"; "}"].
Definition simple_out : list string := ["async fn f() {"; "    x.await;"; "}"].

(** The depth passes from 1 to -1 and is zero only one line later. *)
Definition below_zero_rest : list string := ["}}"; "{ x.await"; "}"].
Definition below_zero_file : list string := "fn f() {" :: below_zero_rest.

(** Inner brace pairs inside a body, after a line that is not a signature. *)
Definition blocks_rest : list string :=
  ["    if a { b.await } else { c }"; "}"; "// end"].
Definition blocks_file : list string := "use x;" :: "fn f() {" :: blocks_rest.

(** The opening brace is on the line after the signature. *)
Definition brace_below_file : list string :=
  ["fn f()"; "{"; "    x.await;"; "}"].


(** An async function that holds a nested function. *)
Definition async_outer_rest : list string :=
  ["    fn inner() {"; "        y.await;"; "    }"; "}"].
Definition async_outer_file : list string := "pub async fn outer() {" :: async_outer_rest.
Definition async_outer_out : list string :=
  ["pub async fn outer() {"; "    async fn inner() {"; "        y.await;";
   "    }"; "}"].

(** A span that is never closed. *)
Definition open_rest : list string := ["    x.await;"; "    if a {"].
Definition open_file : list string := "fn f() {" :: open_rest.

Definition text (ls : list string) : string := Str.join nl_s ls.

End Samples.

(* ================================================================== *)
(** ** Closed files *)

(** Every span the outer loop opens on [ls] ends inside [ls] with a depth of
    zero or below: no span runs on for want of closing braces. *)
Fixpoint closed_fuel (fuel : nat) (ls : list string) : bool :=
  match fuel with
  | O => true
  | S fuel' =>
      match ls with
      | [] => true
      | line :: rest =>
          if is_fn_start line then
            (depth_after 1 (span_body rest) <=? 0)%Z
            && closed_fuel fuel' (span_rest rest)
          else closed_fuel fuel' rest
      end
  end.

Definition closed (ls : list string) : bool := closed_fuel (length ls) ls.

Module MoreSamples.

(** A function whose only marker sits in a comment on its closing line. *)
Definition comment_file : list string :=
  ["use a;"; "pub fn g() {"; "    h();"; "} // was: h().await"].

(** Two files, the first one with all its braces closed. *)
Definition first_text : string := Samples.text Samples.simple_file.
Definition second_text : string :=
  Samples.text ["fn k() {"; "    y.await;"; "}"].

End MoreSamples.

Module ExtraSamples.

Definition plain_text : string :=
  Samples.text ["fn f() {"; "    g();"; "}"; ""].

Definition indented_pub_sig : string := "    pub fn f() {".

End ExtraSamples.

Module ReviewSamples.

(** The body brace is on the next line, but a brace of the return type
    stands on the signature line. *)
Definition const_generic_file : list string :=
  ["pub fn zero() -> Matrix<{ N }>"; "{"; "    x.await;"; "}"].
Definition const_generic_out : list string :=
  ["pub async fn zero() -> Matrix<{ N }>"; "{"; "    x.await;"; "}"].


End ReviewSamples.
(* ================================================================== *)
(** ** Facts about the string primitives *)

Section StringFacts.

Lemma sapp_nil_r (s : string) : (s ++ "")%string = s.
Proof. induction s as [|a s IH]; simpl; [reflexivity | now rewrite IH]. Qed.

Lemma sapp_assoc (s t u : string) :
  ((s ++ t) ++ u)%string = (s ++ (t ++ u))%string.
Proof. induction s as [|a s IH]; simpl; [reflexivity | now rewrite IH]. Qed.

Lemma count_char_app (c : ascii) (s t : string) :
  Str.count_char c (s ++ t) = (Str.count_char c s + Str.count_char c t)%Z.
Proof. induction s as [|a s IH]; simpl; [reflexivity | rewrite IH; lia]. Qed.

Lemma count_char_nonneg (c : ascii) (s : string) : (0 <= Str.count_char c s)%Z.
Proof. induction s as [|a s IH]; simpl; [lia | destruct (Ascii.eqb a c); lia]. Qed.

Lemma prefix_app (p s : string) : String.prefix p (p ++ s) = true.
Proof.
  induction p as [|a p IH]; simpl; [now destruct s|].
  destruct (ascii_dec a a) as [_|N]; [exact IH | now elim N].
Qed.

Lemma prefix_split (p s : string) :
  String.prefix p s = true -> s = (p ++ Str.drop (String.length p) s)%string.
Proof.
  revert s. induction p as [|a p IH]; intros s H; simpl; [reflexivity|].
  destruct s as [|b s]; simpl in H; [discriminate|].
  destruct (ascii_dec a b) as [->|]; [|discriminate].
  simpl. f_equal. now apply IH.
Qed.

Lemma drop_app (p s : string) : Str.drop (String.length p) (p ++ s) = s.
Proof. induction p as [|a p IH]; simpl; [reflexivity | exact IH]. Qed.

Lemma replace_first_here (old new s : string) :
  Str.replace_first old new (old ++ s) = (new ++ s)%string.
Proof.
  pose proof (prefix_app old s) as Hp. pose proof (drop_app old s) as Hd.
  destruct (old ++ s)%string; cbn [Str.replace_first]; rewrite Hp, Hd;
    reflexivity.
Qed.

Lemma contains_app_r (sub s t : string) :
  Str.contains sub t = true -> Str.contains sub (s ++ t) = true.
Proof.
  intros H. induction s as [|a s IH]; simpl; [exact H|].
  rewrite IH. apply orb_true_r.
Qed.

Lemma contains_prefix (sub s : string) :
  String.prefix sub s = true -> Str.contains sub s = true.
Proof. intros H. destruct s; cbn [Str.contains]; rewrite H; reflexivity. Qed.

(** The edit either leaves the line alone (no occurrence) or splits it
    around the leftmost occurrence. *)
Lemma replace_first_cases (old new s : string) :
  (Str.contains old s = false /\ Str.replace_first old new s = s) \/
  (exists pre post,
     s = (pre ++ old ++ post)%string /\
     Str.replace_first old new s = (pre ++ new ++ post)%string /\
     (forall pre' post', s = (pre' ++ old ++ post')%string ->
        String.length pre <= String.length pre')).
Proof.
  induction s as [|a s IH].
  - cbn [Str.replace_first Str.contains].
    destruct (String.prefix old "") eqn:E.
    + right. exists ""%string, (Str.drop (String.length old) "").
      split; [exact (prefix_split _ _ E)|]. split; [reflexivity|].
      intros; simpl; lia.
    + left. split; reflexivity.
  - cbn [Str.replace_first Str.contains].
    destruct (String.prefix old (String a s)) eqn:E.
    + right. exists ""%string, (Str.drop (String.length old) (String a s)).
      split; [exact (prefix_split _ _ E)|]. split; [reflexivity|].
      intros; simpl; lia.
    + cbn [orb]. destruct IH as [[Hc Hr]|(pre & post & Hs & Hr & Hmin)].
      * left. split; [exact Hc | now rewrite Hr].
      * right. exists (String a pre), post.
        split; [simpl; now rewrite <- Hs|]. split; [simpl; now rewrite Hr|].
        intros pre' post' H'. destruct pre' as [|b pre'].
        -- simpl in H'. rewrite H' in E. now rewrite prefix_app in E.
        -- simpl in H'. injection H' as _ H'. simpl.
           specialize (Hmin _ _ H'). lia.
Qed.

Lemma replace_first_absent (old new s : string) :
  Str.contains old s = false -> Str.replace_first old new s = s.
Proof.
  induction s as [|a s IH]; cbn [Str.replace_first Str.contains]; intros H;
    apply orb_false_iff in H as [Hp Hc]; rewrite Hp; [reflexivity|].
  now rewrite IH.
Qed.

(** After the edit the line carries the qualifier. *)
Lemma replace_first_async (s : string) :
  Str.contains "fn " s = true ->
  Str.contains async_fn (Str.replace_first "fn " "async fn " s) = true.
Proof.
  intros H.
  destruct (replace_first_cases "fn " "async fn " s)
    as [[Hc _]|(pre & post & _ & Hr & _)]; [congruence|].
  rewrite Hr. apply contains_app_r. reflexivity.
Qed.

Lemma split_nonempty (sep : ascii) (s : string) : Str.split sep s <> [].
Proof.
  destruct s as [|a s]; simpl; [discriminate|].
  destruct (Ascii.eqb a sep); [discriminate|].
  destruct (Str.split sep s); discriminate.
Qed.

Lemma join_cons (sep l : string) (ls : list string) :
  ls <> [] -> Str.join sep (l :: ls) = (l ++ sep ++ Str.join sep ls)%string.
Proof. destruct ls; [congruence | reflexivity]. Qed.

(** [sep.join(s.split(sep)) == s]. *)
Lemma join_split (sep : ascii) (s : string) :
  Str.join (String sep "") (Str.split sep s) = s.
Proof.
  induction s as [|a s IH]; [reflexivity|].
  pose proof (split_nonempty sep s) as Hne.
  cbn [Str.split]. destruct (Ascii.eqb_spec a sep) as [->|N].
  - rewrite join_cons by exact Hne. rewrite IH. reflexivity.
  - destruct (Str.split sep s) as [|l ls]; [congruence|].
    destruct ls as [|l' ls].
    + cbn [Str.join] in *. now rewrite IH.
    + rewrite join_cons by discriminate.
      rewrite join_cons in IH by discriminate.
      simpl. f_equal. exact IH.
Qed.

(** Lines free of the separator survive a join followed by a split. *)
Lemma split_join (sep : ascii) (ls : list string) :
  ls <> [] ->
  Forall (fun l => Str.count_char sep l = 0%Z) ls ->
  Str.split sep (Str.join (String sep "") ls) = ls.
Proof.
  induction ls as [|l ls IH]; intros Hne Hall; [congruence|].
  inversion Hall as [|? ? Hl Hls]; subst.
  destruct ls as [|l' ls].
  - cbn [Str.join]. clear IH Hall Hls Hne.
    induction l as [|a l IHl]; [reflexivity|]. cbn [Str.count_char] in Hl.
    pose proof (count_char_nonneg sep l).
    cbn [Str.split]. destruct (Ascii.eqb a sep); [lia|].
    rewrite IHl by lia. reflexivity.
  - rewrite join_cons by discriminate.
    specialize (IH ltac:(discriminate) Hls).
    remember (Str.join (String sep "") (l' :: ls)) as t.
    clear Heqt Hall Hls Hne.
    induction l as [|a l IHl].
    + simpl. rewrite Ascii.eqb_refl. now rewrite IH.
    + cbn [Str.count_char] in Hl. pose proof (count_char_nonneg sep l).
      simpl. destruct (Ascii.eqb a sep); [lia|].
      simpl in IHl. rewrite IHl by lia. reflexivity.
Qed.

Lemma split_no_sep (sep : ascii) (s : string) :
  Forall (fun l => Str.count_char sep l = 0%Z) (Str.split sep s).
Proof.
  induction s as [|a s IH]; simpl; [repeat constructor|].
  destruct (Ascii.eqb a sep) eqn:E.
  - constructor; [reflexivity | exact IH].
  - destruct (Str.split sep s) as [|l ls]; [repeat constructor; simpl; now rewrite E|].
    inversion IH; subst. constructor; [simpl; rewrite E; lia | assumption].
Qed.

(** The edit adds no line break. *)
Lemma replace_first_no_nl (s : string) :
  Str.count_char nl s = 0%Z ->
  Str.count_char nl (Str.replace_first "fn " "async fn " s) = 0%Z.
Proof.
  intros H.
  destruct (replace_first_cases "fn " "async fn " s)
    as [[_ Hr]|(pre & post & Hs & Hr & _)]; [now rewrite Hr|].
  rewrite Hr. rewrite Hs in H.
  rewrite !count_char_app in *. cbn in *. lia.
Qed.

End StringFacts.

(* ================================================================== *)
(** ** Facts about the loops *)

Section LoopFacts.

Lemma scan_app (ls : list string) :
  forall bc, fst (scan bc ls) ++ snd (scan bc ls) = ls.
Proof.
  induction ls as [|l ls IH]; intros bc; simpl; [reflexivity|].
  destruct (0 <? bc)%Z; [|reflexivity].
  specialize (IH (bc + brace_delta l)%Z).
  destruct (scan (bc + brace_delta l) ls) as [body rest]; simpl in *.
  now rewrite IH.
Qed.

Lemma scan_cons_open (bc : Z) (l : string) (ls : list string) :
  (0 < bc)%Z ->
  scan bc (l :: ls) =
  (l :: fst (scan (bc + brace_delta l) ls), snd (scan (bc + brace_delta l) ls)).
Proof.
  intros H. simpl. apply Z.ltb_lt in H. rewrite H.
  now destruct (scan (bc + brace_delta l) ls).
Qed.

Lemma scan_closed (bc : Z) (ls : list string) :
  (bc <= 0)%Z -> scan bc ls = ([], ls).
Proof.
  intros H. destruct ls as [|l ls]; [reflexivity|]. simpl.
  apply Z.ltb_ge in H. now rewrite H.
Qed.

Lemma span_split (rest : list string) : span_body rest ++ span_rest rest = rest.
Proof. apply scan_app. Qed.

Lemma span_rest_length (rest : list string) :
  length (span_body rest) + length (span_rest rest) = length rest.
Proof. rewrite <- length_app, span_split; reflexivity. Qed.

Lemma span_rest_skipn (rest : list string) :
  span_rest rest = skipn (length (span_body rest)) rest.
Proof.
  transitivity (skipn (length (span_body rest)) (span_body rest ++ span_rest rest)).
  - rewrite skipn_app, skipn_all, Nat.sub_diag. reflexivity.
  - now rewrite span_split.
Qed.

Lemma process_fuel_enough :
  forall n m ls, length ls <= n -> length ls <= m ->
  process_fuel n ls = process_fuel m ls.
Proof.
  induction n as [|n IH]; intros m ls Hn Hm.
  - destruct ls; [|simpl in Hn; lia]. destruct m; reflexivity.
  - destruct m as [|m].
    + destruct ls; [reflexivity | simpl in Hm; lia].
    + destruct ls as [|l rest]; [reflexivity|]. simpl in Hn, Hm. simpl.
      pose proof (span_rest_length rest) as Hlen.
      destruct (is_fn_start l).
      * rewrite (IH m (span_rest rest)) by lia. reflexivity.
      * rewrite (IH m rest) by lia. reflexivity.
Qed.

Lemma process_nil : process [] = [].
Proof. reflexivity. Qed.

Lemma process_cons (line : string) (rest : list string) :
  process (line :: rest) =
  if is_fn_start line then
    new_signature line (span_body rest) :: span_body rest ++ process (span_rest rest)
  else line :: process rest.
Proof.
  unfold process. simpl.
  pose proof (span_rest_length rest) as Hlen.
  destruct (is_fn_start line); [|reflexivity].
  rewrite (process_fuel_enough (length rest) (length (span_rest rest))) by lia.
  reflexivity.
Qed.

Lemma process_skip (line : string) (rest : list string) :
  is_fn_start line = false -> process (line :: rest) = line :: process rest.
Proof. intros H. rewrite process_cons, H. reflexivity. Qed.

Lemma process_span (line : string) (rest : list string) :
  is_fn_start line = true ->
  process (line :: rest) =
  new_signature line (span_body rest) :: span_body rest ++ process (span_rest rest).
Proof. intros H. rewrite process_cons, H. reflexivity. Qed.

(** Strong induction on the unread lines, following the outer loop. *)
Lemma outer_loop_ind (P : list string -> Prop) :
  P [] ->
  (forall line rest, is_fn_start line = false -> P rest -> P (line :: rest)) ->
  (forall line rest, is_fn_start line = true -> P (span_rest rest) ->
     P (line :: rest)) ->
  forall ls, P ls.
Proof.
  intros Hnil Hskip Hspan ls.
  remember (length ls) as n eqn:Hn. revert ls Hn.
  induction n as [n IH] using lt_wf_ind. intros ls Hn. subst n.
  destruct ls as [|l rest]; [exact Hnil|]. simpl in IH.
  pose proof (span_rest_length rest) as Hlen.
  destruct (is_fn_start l) eqn:E.
  - apply Hspan; [exact E|].
    apply (IH (length (span_rest rest))); [lia | reflexivity].
  - apply Hskip; [exact E|]. apply (IH (length rest)); [lia | reflexivity].
Qed.

Lemma process_length (ls : list string) : length (process ls) = length ls.
Proof.
  induction ls as [|line rest E IH|line rest E IH] using outer_loop_ind.
  - reflexivity.
  - rewrite process_skip by exact E. simpl. now rewrite IH.
  - rewrite process_span by exact E. simpl.
    rewrite length_app, IH. pose proof (span_rest_length rest). lia.
Qed.

Lemma no_nested_fuel_enough :
  forall n m ls, length ls <= n -> length ls <= m ->
  no_nested_fuel n ls = no_nested_fuel m ls.
Proof.
  induction n as [|n IH]; intros m ls Hn Hm.
  - destruct ls; [|simpl in Hn; lia]. destruct m; reflexivity.
  - destruct m as [|m].
    + destruct ls; [reflexivity | simpl in Hm; lia].
    + destruct ls as [|l rest]; [reflexivity|]. simpl in Hn, Hm. simpl.
      pose proof (span_rest_length rest) as Hlen.
      destruct (is_fn_start l).
      * rewrite (IH m (span_rest rest)) by lia. reflexivity.
      * rewrite (IH m rest) by lia. reflexivity.
Qed.

Lemma no_nested_cons (line : string) (rest : list string) :
  no_nested (line :: rest) =
  if is_fn_start line then
    forallb (fun l => negb (is_fn_start l)) (span_body rest)
    && no_nested (span_rest rest)
  else no_nested rest.
Proof.
  unfold no_nested. simpl.
  pose proof (span_rest_length rest) as Hlen.
  destruct (is_fn_start line); [|reflexivity].
  rewrite (no_nested_fuel_enough (length rest) (length (span_rest rest))) by lia.
  reflexivity.
Qed.

Lemma skipn_nth_error {A : Type} (xs : list A) :
  forall i, i < length xs ->
  exists x, nth_error xs i = Some x /\ skipn i xs = x :: skipn (S i) xs.
Proof.
  induction xs as [|a xs IH]; intros i Hi; simpl in Hi; [lia|].
  destruct i as [|i].
  - exists a. split; reflexivity.
  - apply IH. lia.
Qed.

(** The inner loop takes exactly the lines [scan] takes. *)
Lemma span_loop_scan (lines : list string) :
  forall fuel st,
  length lines - sp_j st < fuel ->
  exists bc',
  span_loop fuel lines st =
  Done (mk_span (sp_j st + length (fst (scan (sp_brace_count st) (skipn (sp_j st) lines))))
                bc'
                (sp_fn_lines st ++ fst (scan (sp_brace_count st) (skipn (sp_j st) lines)))
                (sp_fn_body st ++
                 body_text (fst (scan (sp_brace_count st) (skipn (sp_j st) lines))))%string).
Proof.
  induction fuel as [|fuel IH]; intros [j bc fl fb] Hfuel; simpl in *; [lia|].
  destruct (j <? length lines)%nat eqn:Ej; simpl.
  - apply Nat.ltb_lt in Ej.
    destruct (skipn_nth_error lines j Ej) as (x & Hx & Hskip).
    rewrite Hskip. destruct (0 <? bc)%Z eqn:Ebc.
    + unfold index. rewrite Hx. cbn [bind].
      destruct (IH (mk_span (j + 1) (bc + brace_delta x) (fl ++ [x])
                            (fb ++ x ++ nl_s)%string)) as [bc' Hrun];
        [simpl; lia|].
      rewrite Hrun. cbn [sp_j sp_brace_count sp_fn_lines sp_fn_body].
      rewrite Nat.add_1_r. cbn [skipn] in Hskip.
      rewrite scan_cons_open by (now apply Z.ltb_lt).
      cbn [fst length body_text]. exists bc'. f_equal. f_equal.
      * lia.
      * now rewrite <- app_assoc.
      * now rewrite !sapp_assoc.
    + rewrite scan_closed by (now apply Z.ltb_ge).
      exists bc. simpl. now rewrite Nat.add_0_r, app_nil_r, sapp_nil_r.
  - apply Nat.ltb_ge in Ej. rewrite skipn_all2 by exact Ej.
    exists bc. simpl. now rewrite Nat.add_0_r, app_nil_r, sapp_nil_r.
Qed.

(** The edit of lines 38-43 never fails on a span, which always holds
    its signature line. *)
Lemma qualify_span (line : string) (body : list string) :
  qualify line (line :: body) (body_text body) =
  Done (new_signature line body :: body).
Proof.
  unfold qualify, new_signature.
  destruct (Str.contains await_marker (body_text body)); [|reflexivity].
  destruct (Str.contains async_fn line); reflexivity.
Qed.

(** The outer loop, started at index [i], appends [process] of the lines
    from [i] on. *)
Lemma main_loop_process (lines : list string) :
  forall fuel i result,
  length lines - i < fuel ->
  main_loop fuel lines i result = Done (result ++ process (skipn i lines)).
Proof.
  induction fuel as [|fuel IH]; intros i result Hfuel; [lia|].
  cbn [main_loop]. destruct (i <? length lines)%nat eqn:Ei.
  - apply Nat.ltb_lt in Ei.
    destruct (skipn_nth_error lines i Ei) as (line & Hline & Hskip).
    unfold index. rewrite Hline. cbn [bind]. rewrite Hskip, process_cons.
    destruct (is_fn_start line) eqn:Ematch.
    + destruct (span_loop_scan lines (S (length lines))
                  (mk_span (i + 1) 1 [line] "")) as [bc' Hrun]; [simpl; lia|].
      rewrite Hrun. cbn [bind sp_j sp_brace_count sp_fn_lines sp_fn_body].
      rewrite Nat.add_1_r.
      change (fst (scan 1 (skipn (S i) lines))) with (span_body (skipn (S i) lines)).
      cbn [app append]. rewrite qualify_span. cbn [bind].
      pose proof (span_rest_length (skipn (S i) lines)) as Hlen.
      rewrite length_skipn in Hlen.
      rewrite IH by lia.
      rewrite span_rest_skipn, skipn_skipn.
      rewrite (Nat.add_comm (length _) (S i)), <- app_assoc. reflexivity.
    + rewrite IH by lia. rewrite Nat.add_1_r, <- app_assoc. reflexivity.
  - apply Nat.ltb_ge in Ei. rewrite skipn_all2 by exact Ei.
    now rewrite process_nil, app_nil_r.
Qed.

(** Every run finishes, and with the text [fix_async] computes. *)
Lemma fix_async_functions_done (content : string) :
  fix_async_functions content = Done (fix_async content).
Proof.
  unfold fix_async_functions, fix_async.
  rewrite main_loop_process by lia. reflexivity.
Qed.

End LoopFacts.

(* ================================================================== *)
(** ** Facts about the matcher *)

Section MatcherFacts.

Lemma lang_void_inv (s : string) : ~ lang Void s.
Proof. intros H; inversion H. Qed.

Lemma lang_eps_inv (s : string) : lang Eps s -> s = ""%string.
Proof. intros H; now inversion H. Qed.

Lemma lang_atom_inv (k : cset) (s : string) :
  lang (Atom k) s -> exists c, s = String c "" /\ in_cset k c = true.
Proof. intros H; inversion H; subst; eauto. Qed.

Lemma lang_seq_inv (a b : re) (s : string) :
  lang (Seq a b) s ->
  exists s1 s2, s = (s1 ++ s2)%string /\ lang a s1 /\ lang b s2.
Proof. intros H; inversion H; subst; eauto. Qed.

Lemma lang_alt_inv (a b : re) (s : string) :
  lang (Alt a b) s -> lang a s \/ lang b s.
Proof. intros H; inversion H; subst; auto. Qed.

Lemma lang_opt_inv (a : re) (s : string) :
  lang (Opt a) s -> lang a s \/ s = ""%string.
Proof.
  intros H. apply lang_alt_inv in H as [H|H]; [now left|].
  right. now apply lang_eps_inv.
Qed.

Lemma lang_lit (t : string) : lang (Lit t) t.
Proof.
  induction t as [|c t IH]; simpl; [constructor|].
  change (String c t) with (String c "" ++ t)%string.
  constructor; [constructor; simpl; apply Ascii.eqb_refl | exact IH].
Qed.

Lemma lang_lit_inv (t s : string) : lang (Lit t) s -> s = t.
Proof.
  revert s. induction t as [|c t IH]; intros s H; simpl in H.
  - now apply lang_eps_inv.
  - apply lang_seq_inv in H as (s1 & s2 & -> & H1 & H2).
    apply lang_atom_inv in H1 as (d & -> & Hd). simpl in Hd.
    apply Ascii.eqb_eq in Hd. subst d. simpl. f_equal. now apply IH.
Qed.

Lemma lang_mkSeq (a b : re) (s : string) : lang (mkSeq a b) s <-> lang (Seq a b) s.
Proof.
  split; intros H.
  - destruct a, b; simpl in H; try exact H; try (now inversion H);
      (change s with ("" ++ s)%string; constructor; [constructor | exact H]).
  - apply lang_seq_inv in H as (s1 & s2 & -> & H1 & H2).
    destruct a, b; simpl; try (now constructor);
      try (now inversion H1); try (now inversion H2);
      (apply lang_eps_inv in H1; subst s1; exact H2).
Qed.

Lemma lang_mkAlt (a b : re) (s : string) : lang (mkAlt a b) s <-> lang (Alt a b) s.
Proof.
  split; intros H.
  - destruct a, b; simpl in H; try exact H;
      try (now apply lang_alt_l); try (now apply lang_alt_r).
  - apply lang_alt_inv in H as [H|H];
      destruct a, b; simpl; try (now inversion H);
      try exact H; try (now apply lang_alt_l); try (now apply lang_alt_r).
Qed.

Lemma nullable_spec (r : re) : nullable r = true <-> lang r ""%string.
Proof.
  induction r as [| |k|a IHa b IHb|a IHa b IHb|a IHa]; simpl.
  - split; [discriminate | intros H; inversion H].
  - split; [constructor | reflexivity].
  - split; [discriminate | intros H; inversion H].
  - rewrite andb_true_iff, IHa, IHb. split.
    + intros [Ha Hb]. now apply (lang_seq a b ""%string ""%string).
    + intros H. apply lang_seq_inv in H as (s1 & s2 & E & H1 & H2).
      destruct s1; [|discriminate]. simpl in E. subst s2. now split.
  - rewrite orb_true_iff, IHa, IHb. split.
    + intros [H|H]; [now apply lang_alt_l | now apply lang_alt_r].
    + apply lang_alt_inv.
  - split; [constructor | reflexivity].
Qed.

(** A nonempty word of [a*] starts with a nonempty word of [a]. *)
Lemma lang_star_cons_inv (a : re) (c : ascii) (s : string) :
  lang (Star a) (String c s) ->
  exists s1 s2, s = (s1 ++ s2)%string /\ lang a (String c s1) /\ lang (Star a) s2.
Proof.
  intros H. remember (Star a) as r eqn:Er. remember (String c s) as w eqn:Ew.
  revert Er Ew. induction H as [| | | | | |a' u t Hu _ Ht IHt]; try discriminate.
  intros Er Ew. injection Er as ->.
  destruct u as [|d u].
  - simpl in Ew. now apply IHt.
  - simpl in Ew. injection Ew as -> <-. exists u, t. auto.
Qed.

Lemma deriv_spec (r : re) :
  forall c s, lang (deriv c r) s <-> lang r (String c s).
Proof.
  induction r as [| |k|a IHa b IHb|a IHa b IHb|a IHa]; intros c s; simpl.
  - split; intros H; inversion H.
  - split; intros H; inversion H.
  - destruct (in_cset k c) eqn:E; split; intros H.
    + apply lang_eps_inv in H. subst s. now constructor.
    + apply lang_atom_inv in H as (d & Hd & _). injection Hd as _ ->. constructor.
    + inversion H.
    + apply lang_atom_inv in H as (d & Hd & Hk). injection Hd as <- _. congruence.
  - assert (Hl : lang (mkSeq (deriv c a) b) s -> lang (Seq a b) (String c s)).
    { intros H. apply lang_mkSeq, lang_seq_inv in H as (s1 & s2 & -> & H1 & H2).
      apply IHa in H1. change (String c (s1 ++ s2)) with (String c s1 ++ s2)%string.
      now constructor. }
    assert (Hr : forall s1 s2, String c s = (String c s1 ++ s2)%string ->
                 lang a (String c s1) -> lang b s2 -> lang (mkSeq (deriv c a) b) s).
    { intros s1 s2 E H1 H2. simpl in E. injection E as ->.
      apply lang_mkSeq. constructor; [now apply IHa | exact H2]. }
    destruct (nullable a) eqn:Na.
    + rewrite lang_mkAlt. split; intros H.
      * apply lang_alt_inv in H as [H|H]; [now apply Hl|].
        apply IHb in H. apply (lang_seq a b ""%string (String c s));
          [now apply nullable_spec | exact H].
      * apply lang_seq_inv in H as (s1 & s2 & E & H1 & H2).
        destruct s1 as [|d s1].
        -- simpl in E. subst s2. apply lang_alt_r. now apply IHb.
        -- pose proof E as E'. simpl in E'. injection E' as <- _.
           apply lang_alt_l. now apply (Hr s1 s2).
    + split; intros H; [now apply Hl|].
      apply lang_seq_inv in H as (s1 & s2 & E & H1 & H2).
      destruct s1 as [|d s1].
      * apply nullable_spec in H1. congruence.
      * pose proof E as E'. simpl in E'. injection E' as <- _.
        now apply (Hr s1 s2).
  - rewrite lang_mkAlt. split; intros H.
    + apply lang_alt_inv in H as [H|H];
        [apply lang_alt_l; now apply IHa | apply lang_alt_r; now apply IHb].
    + apply lang_alt_inv in H as [H|H];
        [apply lang_alt_l; now apply IHa | apply lang_alt_r; now apply IHb].
  - rewrite lang_mkSeq. split; intros H.
    + apply lang_seq_inv in H as (s1 & s2 & -> & H1 & H2). apply IHa in H1.
      change (String c (s1 ++ s2)) with (String c s1 ++ s2)%string.
      now constructor.
    + apply lang_star_cons_inv in H as (s1 & s2 & -> & H1 & H2).
      constructor; [now apply IHa | exact H2].
Qed.

(** [re_match] succeeds exactly when a prefix of the subject is a word of
    the pattern. *)
Lemma re_match_spec (s : string) :
  forall r, re_match r s = true <->
            exists p q, s = (p ++ q)%string /\ lang r p.
Proof.
  induction s as [|c s IH]; intros r; simpl.
  - rewrite orb_false_r, nullable_spec. split.
    + intros H. exists ""%string, ""%string. now split.
    + intros (p & q & E & H). destruct p; [exact H | discriminate].
  - rewrite orb_true_iff, nullable_spec, IH. split.
    + intros [H|(p & q & -> & H)].
      * exists ""%string, (String c s). now split.
      * exists (String c p), q. split; [reflexivity | now apply deriv_spec].
    + intros (p & q & E & H). destruct p as [|d p].
      * now left.
      * simpl in E. injection E as <- ->. right. exists p, q.
        split; [reflexivity | now apply deriv_spec].
Qed.

(** *** The shape of a signature line *)

Lemma lang_star_atom (k : cset) (s : string) :
  lang (Star (Atom k)) s -> all_in k s = true.
Proof.
  intros H. remember (Star (Atom k)) as r eqn:Er. revert Er.
  induction H as [| | | | | |a u t Hu _ Ht IHt]; try discriminate;
    intros Er; [reflexivity|].
  injection Er as ->. apply lang_atom_inv in Hu as (c & -> & Hc).
  simpl. rewrite Hc. now apply IHt.
Qed.

Lemma lang_plus_atom (k : cset) (s : string) :
  lang (Plus (Atom k)) s ->
  exists c t, s = String c t /\ in_cset k c = true /\ all_in k t = true.
Proof.
  intros H. apply lang_seq_inv in H as (s1 & s2 & -> & H1 & H2).
  apply lang_atom_inv in H1 as (c & -> & Hc).
  exists c, s2. split; [reflexivity|]. split; [exact Hc|].
  now apply lang_star_atom.
Qed.

(** Every word of [fn_pattern] ends with the opening brace. *)
Lemma fn_pattern_ends_brace (p : string) :
  lang fn_pattern p -> exists p', p = (p' ++ "{")%string.
Proof.
  intros H. unfold fn_pattern in H.
  apply lang_seq_inv in H as (s1 & r1 & -> & _ & H).
  apply lang_seq_inv in H as (s2 & r2 & -> & _ & H).
  apply lang_seq_inv in H as (s3 & r3 & -> & _ & H).
  apply lang_seq_inv in H as (s4 & r4 & -> & _ & H).
  apply lang_lit_inv in H. subst r4.
  exists (s1 ++ s2 ++ s3 ++ s4)%string. now rewrite !sapp_assoc.
Qed.

(** A line that starts a function carries an opening brace. *)
Lemma is_fn_start_brace (line : string) :
  is_fn_start line = true -> (1 <= Str.count_char open_brace line)%Z.
Proof.
  intros H. apply re_match_spec in H as (p & q & -> & H).
  apply fn_pattern_ends_brace in H as (p' & ->).
  rewrite !count_char_app. cbn.
  pose proof (count_char_nonneg open_brace p').
  pose proof (count_char_nonneg open_brace q). lia.
Qed.

(** Every word of [fn_pattern] is indentation, an optional "pub" with its
    whitespace, and then the keyword "fn" followed by whitespace. *)
Lemma fn_pattern_head (p : string) :
  lang fn_pattern p ->
  exists ws pub k tail,
    p = (ws ++ pub ++ "fn" ++ String k tail)%string /\
    all_space ws = true /\ is_space k = true /\
    (pub = ""%string \/
     exists k' ws', pub = ("pub" ++ String k' ws')%string /\
                    is_space k' = true /\ all_space ws' = true).
Proof.
  intros H. unfold fn_pattern in H.
  apply lang_seq_inv in H as (ws & r1 & -> & Hws & H).
  apply lang_seq_inv in H as (pub & r2 & -> & Hpub & H).
  apply lang_seq_inv in H as (sig & r3 & -> & Hsig & _).
  unfold sig_group3 in Hsig.
  apply lang_seq_inv in Hsig as (kw & r4 & -> & Hkw & Hsig).
  apply lang_seq_inv in Hsig as (sp & r5 & -> & Hsp & _).
  apply lang_lit_inv in Hkw. subst kw.
  apply lang_plus_atom in Hsp as (k & t & -> & Hk & _).
  exists ws, pub, k, (t ++ r5 ++ r3)%string.
  split; [|split; [now apply lang_star_atom | split; [exact Hk|]]].
  - rewrite !sapp_assoc. reflexivity.
  - apply lang_opt_inv in Hpub as [Hpub | ->]; [right | now left].
    apply lang_seq_inv in Hpub as (l & sp' & -> & Hl & Hsp').
    apply lang_lit_inv in Hl. subst l.
    apply lang_plus_atom in Hsp' as (k' & ws' & -> & Hk' & Hws').
    exists k', ws'. auto.
Qed.

Lemma is_fn_start_head (line : string) :
  is_fn_start line = true ->
  exists ws pub k tail,
    line = (ws ++ pub ++ "fn" ++ String k tail)%string /\
    all_space ws = true /\ is_space k = true /\
    (pub = ""%string \/
     exists k' ws', pub = ("pub" ++ String k' ws')%string /\
                    is_space k' = true /\ all_space ws' = true).
Proof.
  intros H. apply re_match_spec in H as (p & q & -> & H).
  apply fn_pattern_head in H as (ws & pub & k & tail & -> & Hws & Hk & Hpub).
  exists ws, pub, k, (tail ++ q)%string.
  split; [|auto]. rewrite !sapp_assoc. reflexivity.
Qed.

(** Two ways of reading indentation followed by a visible character agree. *)
Lemma first_visible (ws1 ws2 : string) (c1 c2 : ascii) (t1 t2 : string) :
  all_space ws1 = true -> all_space ws2 = true ->
  is_space c1 = false -> is_space c2 = false ->
  (ws1 ++ String c1 t1)%string = (ws2 ++ String c2 t2)%string ->
  ws1 = ws2 /\ c1 = c2 /\ t1 = t2.
Proof.
  unfold all_space. revert ws2.
  induction ws1 as [|a ws1 IH]; intros [|b ws2] H1 H2 N1 N2 E;
    cbn [all_in in_cset append] in *.
  - injection E as -> ->. auto.
  - injection E as -> _. apply andb_true_iff in H2 as [H2 _]. congruence.
  - injection E as -> _. apply andb_true_iff in H1 as [H1 _]. congruence.
  - injection E as -> E. apply andb_true_iff in H1 as [_ H1].
    apply andb_true_iff in H2 as [_ H2].
    destruct (IH ws2 H1 H2 N1 N2 E) as (-> & -> & ->). auto.
Qed.

(** A line whose first visible text is "async" does not start a function. *)
Lemma async_line_not_start (ws tail : string) :
  all_space ws = true -> is_fn_start (ws ++ "async" ++ tail) = false.
Proof.
  intros Hws. destruct (is_fn_start (ws ++ "async" ++ tail)) eqn:E; [|reflexivity].
  exfalso.
  apply is_fn_start_head in E as (ws2 & pub & k & t & E & Hws2 & Hk & Hpub).
  destruct Hpub as [-> | (k' & ws' & -> & _ & _)]; simpl in E;
    apply first_visible in E as (_ & E & _); try discriminate E;
    auto; reflexivity.
Qed.

(** Nor does a line that reads "pub", whitespace, "async". *)
Lemma pub_async_line_not_start (ws ws' tail : string) :
  all_space ws = true -> all_space ws' = true ->
  is_fn_start (ws ++ "pub" ++ ws' ++ "async" ++ tail) = false.
Proof.
  intros Hws Hws'.
  destruct (is_fn_start (ws ++ "pub" ++ ws' ++ "async" ++ tail)) eqn:E;
    [|reflexivity].
  exfalso.
  apply is_fn_start_head in E as (ws2 & pub & k & t & E & Hws2 & Hk & Hpub).
  destruct Hpub as [-> | (k' & ws3 & -> & Hk' & Hws3)]; simpl in E.
  - apply first_visible in E as (_ & E & _); try discriminate E; auto.
  - apply first_visible in E as (_ & _ & E); auto.
    injection E as E.
    change (String k' (ws3 ++ String "f" (String "n" (String k t))))
      with ((String k' ws3) ++ String "f" (String "n" (String k t)))%string in E.
    apply first_visible in E as (_ & E & _); try discriminate E; auto.
    unfold all_space in *. cbn [all_in in_cset]. now rewrite Hk', Hws3.
Qed.

(** The edit passes over text that holds no letter f. *)
Lemma replace_first_skip (pre s : string) :
  Str.count_char "f" pre = 0%Z ->
  Str.replace_first "fn " "async fn " (pre ++ s) =
  (pre ++ Str.replace_first "fn " "async fn " s)%string.
Proof.
  induction pre as [|a pre IH]; intros H; [reflexivity|].
  cbn [Str.count_char] in H. pose proof (count_char_nonneg "f" pre).
  destruct (Ascii.eqb_spec a "f"%char) as [->|N]; [lia|].
  cbn [append Str.replace_first]. cbn [prefix].
  destruct (ascii_dec "f" a) as [<-|_]; [congruence|].
  rewrite IH by lia. reflexivity.
Qed.

Lemma all_space_no_f (ws : string) :
  all_space ws = true -> Str.count_char "f" ws = 0%Z.
Proof.
  unfold all_space. induction ws as [|a ws IH]; [reflexivity|].
  cbn [all_in in_cset Str.count_char].
  intros H. apply andb_true_iff in H as [Ha Hws].
  destruct (Ascii.eqb_spec a "f"%char) as [->|_]; [discriminate Ha|].
  rewrite (IH Hws). reflexivity.
Qed.

(** When the keyword is followed by a space character, the edit puts the
    qualifier immediately before the keyword and keeps the rest. *)
Lemma insertion_before_keyword (ws pub tail : string) :
  all_space ws = true ->
  (pub = ""%string \/
   exists k' ws', pub = ("pub" ++ String k' ws')%string /\
                  is_space k' = true /\ all_space ws' = true) ->
  Str.replace_first "fn " "async fn " (ws ++ pub ++ "fn " ++ tail) =
  (ws ++ pub ++ "async fn " ++ tail)%string.
Proof.
  intros Hws Hpub. rewrite replace_first_skip by now apply all_space_no_f.
  f_equal. rewrite replace_first_skip; [now rewrite replace_first_here|].
  destruct Hpub as [-> | (k' & ws' & -> & Hk' & Hws')]; [reflexivity|].
  change ("pub" ++ String k' ws')%string with ("pub" ++ (String k' ws'))%string.
  rewrite count_char_app.
  rewrite (all_space_no_f (String k' ws')); [reflexivity|].
  unfold all_space in *. cbn [all_in in_cset]. now rewrite Hk', Hws'.
Qed.

End MatcherFacts.

(* ================================================================== *)
(** ** Spans, cursor positions and the output lines *)

Section SpanFacts.

Lemma new_signature_cases (line : string) (body : list string) :
  new_signature line body = line \/
  (Str.contains await_marker (body_text body) = true /\
   Str.contains async_fn line = false /\
   new_signature line body = Str.replace_first "fn " "async fn " line).
Proof.
  unfold new_signature.
  destruct (Str.contains await_marker (body_text body)); [|now left].
  destruct (Str.contains async_fn line); [now left | right; auto].
Qed.

Lemma new_signature_no_marker (line : string) (body : list string) :
  Str.contains await_marker (body_text body) = false ->
  new_signature line body = line.
Proof. unfold new_signature. now intros ->. Qed.

Lemma new_signature_async (line : string) (body : list string) :
  Str.contains async_fn line = true -> new_signature line body = line.
Proof.
  unfold new_signature. intros ->.
  now destruct (Str.contains await_marker (body_text body)).
Qed.

(** Where the cursor stands, the output so far has one line per input line
    and the rest of the output is the work on the unread lines. *)
Lemma cursor_process (ls suf : list string) :
  cursor ls suf ->
  exists pre, process ls = pre ++ process suf /\
              length pre + length suf = length ls.
Proof.
  induction 1 as [ls|line rest suf E _ IH|line rest suf E _ IH].
  - exists []. split; reflexivity.
  - destruct IH as (pre & Hp & Hl). exists (line :: pre).
    rewrite process_skip by exact E. rewrite Hp. simpl. split; [reflexivity | lia].
  - destruct IH as (pre & Hp & Hl).
    exists (new_signature line (span_body rest) :: span_body rest ++ pre).
    rewrite process_span by exact E. rewrite Hp. simpl.
    rewrite <- app_assoc. split; [reflexivity|].
    rewrite length_app. pose proof (span_rest_length rest). lia.
Qed.



(** While a line is taken into the span the depth before it is positive. *)
Lemma scan_prefix_open (ls : list string) :
  forall bc k, k < length (fst (scan bc ls)) ->
  (0 < depth_after bc (firstn k ls))%Z.
Proof.
  induction ls as [|l ls IH]; intros bc k Hk; simpl in Hk; [lia|].
  destruct (0 <? bc)%Z eqn:E.
  - destruct (scan (bc + brace_delta l) ls) as [body rest] eqn:Es.
    simpl in Hk. destruct k as [|k]; simpl; [now apply Z.ltb_lt|].
    apply IH. rewrite Es. simpl. lia.
  - simpl in Hk. lia.
Qed.

(** If lines are left over, the depth after the span is zero or below. *)
Lemma scan_end_closed (ls : list string) :
  forall bc, snd (scan bc ls) <> [] ->
  (depth_after bc (fst (scan bc ls)) <= 0)%Z.
Proof.
  induction ls as [|l ls IH]; intros bc Hne; simpl in *; [congruence|].
  destruct (0 <? bc)%Z eqn:E.
  - specialize (IH (bc + brace_delta l)%Z).
    destruct (scan (bc + brace_delta l) ls) as [body rest]. simpl in *.
    now apply IH.
  - simpl. now apply Z.ltb_ge.
Qed.

(** A depth that stays positive makes the scan take every line. *)
Lemma scan_all_open (ls : list string) :
  forall bc,
  (forall k, k < length ls -> (0 < depth_after bc (firstn k ls))%Z) ->
  scan bc ls = (ls, []).
Proof.
  induction ls as [|l ls IH]; intros bc H; [reflexivity|].
  pose proof (H 0 ltac:(simpl; lia)) as H0. simpl in H0.
  rewrite scan_cons_open by exact H0.
  rewrite IH; [reflexivity|].
  intros k Hk. apply (H (S k)). simpl. lia.
Qed.

(** The span found does not depend on what follows it. *)
Lemma scan_stable (ls : list string) :
  forall bc X, (snd (scan bc ls) = [] -> X = []) ->
  scan bc (fst (scan bc ls) ++ X) = (fst (scan bc ls), X).
Proof.
  induction ls as [|l ls IH]; intros bc X HX.
  - simpl in *. now rewrite HX.
  - simpl in *. destruct (0 <? bc)%Z eqn:E.
    + specialize (IH (bc + brace_delta l)%Z X).
      destruct (scan (bc + brace_delta l) ls) as [body rest]. simpl in *.
      rewrite E, IH by exact HX. reflexivity.
    + simpl. apply scan_closed. now apply Z.ltb_ge.
Qed.

Lemma process_app_plain (body X : list string) :
  forallb (fun l => negb (is_fn_start l)) body = true ->
  process (body ++ X) = body ++ process X.
Proof.
  induction body as [|l body IH]; intros H; [reflexivity|].
  simpl in H. apply andb_true_iff in H as [Hl Hb].
  apply negb_true_iff in Hl. simpl.
  rewrite process_skip by exact Hl. now rewrite IH.
Qed.

(** A second pass over the output changes nothing when no span holds a
    signature line. *)
Lemma process_idempotent (ls : list string) :
  no_nested ls = true -> process (process ls) = process ls.
Proof.
  induction ls as [|line rest E IH|line rest E IH] using outer_loop_ind;
    intros Hnn.
  - reflexivity.
  - rewrite no_nested_cons, E in Hnn.
    rewrite process_skip by exact E. rewrite process_skip by exact E.
    now rewrite IH.
  - rewrite no_nested_cons, E in Hnn. apply andb_true_iff in Hnn as [Hb Hr].
    specialize (IH Hr). rewrite process_span by exact E.
    set (body := span_body rest) in *. set (rem := span_rest rest) in *.
    assert (Hspan : scan 1 (body ++ process rem) = (body, process rem)).
    { apply (scan_stable rest 1 (process rem)).
      change (rem = [] -> process rem = []). now intros ->. }
    destruct (is_fn_start (new_signature line body)) eqn:E'.
    + rewrite process_span by exact E'.
      unfold span_body, span_rest. rewrite Hspan. cbn [fst snd].
      rewrite IH. f_equal.
      destruct (new_signature_cases line body) as [Hs|(Ha & Hq & Hs)].
      * now rewrite !Hs.
      * destruct (Str.contains "fn " line) eqn:Ef.
        -- apply new_signature_async. rewrite Hs.
           now apply replace_first_async.
        -- assert (Hs' : new_signature line body = line)
             by (rewrite Hs; now apply replace_first_absent).
           now rewrite !Hs'.
    + rewrite process_skip by exact E'.
      rewrite process_app_plain by exact Hb. now rewrite IH.
Qed.

Lemma process_Forall (P : string -> Prop) :
  (forall l, P l -> P (Str.replace_first "fn " "async fn " l)) ->
  forall ls, Forall P ls -> Forall P (process ls).
Proof.
  intros HP ls.
  induction ls as [|line rest E IH|line rest E IH] using outer_loop_ind;
    intros Hall.
  - constructor.
  - rewrite process_skip by exact E. inversion Hall; subst.
    constructor; auto.
  - rewrite process_span by exact E. inversion Hall as [|? ? Hl Hr]; subst.
    rewrite <- (span_split rest) in Hr. apply Forall_app in Hr as [Hb Hrem].
    constructor.
    + destruct (new_signature_cases line (span_body rest)) as [->|(_ & _ & ->)];
        auto.
    + apply Forall_app. split; auto.
Qed.

(** The lines of the output text are the lines [process] returns. *)
Lemma split_fix_async (content : string) :
  Str.split nl (fix_async content) = process (Str.split nl content).
Proof.
  unfold fix_async. apply split_join.
  - intros H. apply (f_equal (@length string)) in H.
    rewrite process_length in H.
    pose proof (split_nonempty nl content).
    destruct (Str.split nl content); [congruence | discriminate].
  - apply process_Forall; [apply replace_first_no_nl | apply split_no_sep].
Qed.

(** Line by line: kept, or a signature line with the edit applied. *)
Lemma process_nth (ls : list string) :
  forall k,
  nth k (process ls) ""%string = nth k ls ""%string \/
  (is_fn_start (nth k ls ""%string) = true /\
   Str.contains async_fn (nth k ls ""%string) = false /\
   nth k (process ls) ""%string =
   Str.replace_first "fn " "async fn " (nth k ls ""%string)).
Proof.
  induction ls as [|line rest E IH|line rest E IH] using outer_loop_ind;
    intros k.
  - left. reflexivity.
  - rewrite process_skip by exact E. destruct k as [|k]; [now left|]. apply IH.
  - rewrite process_span by exact E. destruct k as [|k].
    + simpl. destruct (new_signature_cases line (span_body rest))
        as [->|(_ & Hq & ->)]; [now left | right; auto].
    + pose proof (span_split rest) as Hsp.
      set (body := span_body rest) in *. set (rem := span_rest rest) in *.
      clearbody body rem. subst rest. simpl.
      destruct (Nat.lt_ge_cases k (length body)) as [Hk|Hk].
      * left. rewrite !app_nth1 by exact Hk. reflexivity.
      * rewrite !app_nth2 by exact Hk. apply IH.
Qed.

End SpanFacts.


(* ================================================================== *)
(** ** Markers, lines and closed files *)

Section MoreStringFacts.

Lemma prefix_nil_l (s : string) : String.prefix "" s = true.
Proof. now destruct s. Qed.

(** A pattern free of [c] cannot reach across an occurrence of [c]. *)
Lemma prefix_app_sep (c : ascii) (m : string) :
  Str.count_char c m = 0%Z ->
  forall x t, String.prefix m (x ++ String c t) = String.prefix m x.
Proof.
  induction m as [|b m IH]; intros Hc x t.
  - now rewrite !prefix_nil_l.
  - cbn [Str.count_char] in Hc. pose proof (count_char_nonneg c m).
    destruct (Ascii.eqb_spec b c) as [->|Hbc]; [lia|].
    destruct x as [|a x]; cbn [append prefix].
    + destruct (ascii_dec b c) as [E|_]; [congruence | reflexivity].
    + destruct (ascii_dec b a) as [_|_]; [apply IH; lia | reflexivity].
Qed.

Lemma contains_app_sep (c : ascii) (m l t : string) :
  Str.count_char c m = 0%Z ->
  Str.contains m (l ++ String c t) = Str.contains m l || Str.contains m t.
Proof.
  intros Hc. induction l as [|a l IH].
  - cbn [append Str.contains].
    change (String c t) with ("" ++ String c t)%string at 1.
    rewrite prefix_app_sep by exact Hc. now rewrite orb_false_r.
  - cbn [append Str.contains].
    change (String a (l ++ String c t)) with (String a l ++ String c t)%string.
    rewrite prefix_app_sep by exact Hc. rewrite IH. now rewrite orb_assoc.
Qed.

Lemma contains_iff (m s : string) :
  Str.contains m s = true <-> exists pre post, s = (pre ++ m ++ post)%string.
Proof.
  split.
  - induction s as [|a s IH]; cbn [Str.contains]; intros H.
    + rewrite orb_false_r in H. exists ""%string, (Str.drop (String.length m) "").
      exact (prefix_split _ _ H).
    + apply orb_true_iff in H as [H|H].
      * exists ""%string, (Str.drop (String.length m) (String a s)).
        exact (prefix_split _ _ H).
      * destruct (IH H) as (pre & post & ->). now exists (String a pre), post.
  - intros (pre & post & ->). apply contains_app_r, contains_prefix, prefix_app.
Qed.

Lemma split_head (c : ascii) (s : string) :
  exists post, s = (hd ""%string (Str.split c s) ++ post)%string.
Proof.
  induction s as [|a s IH]; [now exists ""%string|].
  cbn [Str.split]. destruct (Ascii.eqb a c).
  - now exists (String a s).
  - destruct (Str.split c s) as [|l ls]; simpl in *.
    + destruct IH as (post & ->). now exists post.
    + destruct IH as (post & ->). now exists post.
Qed.

(** Each line of a text is a piece of the text. *)
Lemma split_piece (c : ascii) (s l : string) :
  In l (Str.split c s) -> exists pre post, s = (pre ++ l ++ post)%string.
Proof.
  revert l. induction s as [|a s IH]; intros l Hin.
  - simpl in Hin. destruct Hin as [<-|[]]. now exists ""%string, ""%string.
  - cbn [Str.split] in Hin. destruct (Ascii.eqb a c).
    + destruct Hin as [<-|Hin]; [now exists ""%string, (String a s)|].
      destruct (IH l Hin) as (pre & post & ->). now exists (String a pre), post.
    + pose proof (split_head c s) as (post0 & Hhd).
      destruct (Str.split c s) as [|l0 ls]; simpl in Hhd.
      * destruct Hin as [<-|[]]. exists ""%string, s. reflexivity.
      * destruct Hin as [<-|Hin].
        -- exists ""%string, post0. simpl. now rewrite <- Hhd.
        -- destruct (IH l (or_intror Hin)) as (pre & post & ->).
           now exists (String a pre), post.
Qed.

Lemma contains_piece (m l pre post : string) :
  Str.contains m l = true -> Str.contains m (pre ++ l ++ post) = true.
Proof.
  intros H. apply contains_iff in H as (p & q & ->). apply contains_iff.
  exists (pre ++ p)%string, (q ++ post)%string. now rewrite !sapp_assoc.
Qed.

Lemma split_app_nl (c : ascii) (a b : string) :
  Str.split c (a ++ String c b) = Str.split c a ++ Str.split c b.
Proof.
  induction a as [|x a IH].
  - simpl. now rewrite Ascii.eqb_refl.
  - cbn [append Str.split]. rewrite IH. destruct (Ascii.eqb x c); [reflexivity|].
    pose proof (split_nonempty c a).
    destruct (Str.split c a) as [|l ls]; [congruence | reflexivity].
Qed.

Lemma join_app (sep : string) (x y : list string) :
  x <> [] -> y <> [] ->
  Str.join sep (x ++ y) = (Str.join sep x ++ sep ++ Str.join sep y)%string.
Proof.
  intros Hx Hy. induction x as [|l x IH]; [congruence|].
  destruct x as [|l' x].
  - simpl app. rewrite join_cons by exact Hy. reflexivity.
  - change ((l :: l' :: x) ++ y) with (l :: ((l' :: x) ++ y)).
    rewrite join_cons by (simpl; discriminate). rewrite IH by discriminate.
    rewrite (join_cons sep l (l' :: x)) by discriminate.
    now rewrite !sapp_assoc.
Qed.

End MoreStringFacts.

Section MoreLoopFacts.

Lemma body_text_marker (body : list string) :
  Str.contains await_marker (body_text body) =
  existsb (Str.contains await_marker) body.
Proof.
  induction body as [|l body IH]; [reflexivity|].
  cbn [body_text existsb].
  change (l ++ nl_s ++ body_text body)%string
    with (l ++ String nl (body_text body))%string.
  rewrite contains_app_sep by reflexivity. now rewrite IH.
Qed.

Lemma process_no_marker (ls : list string) :
  Forall (fun l => Str.contains await_marker l = false) ls -> process ls = ls.
Proof.
  induction ls as [|line rest E IH|line rest E IH] using outer_loop_ind;
    intros Hall.
  - reflexivity.
  - rewrite process_skip by exact E. inversion Hall; subst. now rewrite IH.
  - rewrite process_span by exact E. inversion Hall as [|? ? _ Hr]; subst.
    pose proof (span_split rest) as Hsp. rewrite <- Hsp in Hr.
    apply Forall_app in Hr as [Hb Hrem].
    rewrite IH by exact Hrem. rewrite new_signature_no_marker.
    + now rewrite Hsp.
    + rewrite body_text_marker. apply not_true_is_false. intros Hex.
      apply existsb_exists in Hex as (l & Hin & Hl).
      rewrite Forall_forall in Hb. specialize (Hb l Hin). congruence.
Qed.

Lemma closed_fuel_enough :
  forall n m ls, length ls <= n -> length ls <= m ->
  closed_fuel n ls = closed_fuel m ls.
Proof.
  induction n as [|n IH]; intros m ls Hn Hm.
  - destruct ls; [|simpl in Hn; lia]. destruct m; reflexivity.
  - destruct m as [|m].
    + destruct ls; [reflexivity | simpl in Hm; lia].
    + destruct ls as [|l rest]; [reflexivity|]. simpl in Hn, Hm. simpl.
      pose proof (span_rest_length rest) as Hlen.
      destruct (is_fn_start l).
      * rewrite (IH m (span_rest rest)) by lia. reflexivity.
      * rewrite (IH m rest) by lia. reflexivity.
Qed.

Lemma closed_cons (line : string) (rest : list string) :
  closed (line :: rest) =
  if is_fn_start line then
    (depth_after 1 (span_body rest) <=? 0)%Z && closed (span_rest rest)
  else closed rest.
Proof.
  unfold closed. simpl.
  pose proof (span_rest_length rest) as Hlen.
  destruct (is_fn_start line); [|reflexivity].
  rewrite (closed_fuel_enough (length rest) (length (span_rest rest))) by lia.
  reflexivity.
Qed.

(** A span that ends at depth zero or below is found again when more lines
    follow. *)
Lemma scan_app_closed (ls more : list string) :
  forall bc,
  (depth_after bc (fst (scan bc ls)) <= 0)%Z ->
  scan bc (ls ++ more) = (fst (scan bc ls), snd (scan bc ls) ++ more).
Proof.
  induction ls as [|l ls IH]; intros bc Hd.
  - simpl in *. now apply scan_closed.
  - simpl in *. destruct (0 <? bc)%Z eqn:E.
    + specialize (IH (bc + brace_delta l)%Z).
      destruct (scan (bc + brace_delta l) ls) as [body rest]. simpl in *.
      now rewrite IH.
    + reflexivity.
Qed.

Lemma process_app_closed (a b : list string) :
  closed a = true -> process (a ++ b) = process a ++ process b.
Proof.
  induction a as [|line rest E IH|line rest E IH] using outer_loop_ind;
    intros Hc.
  - reflexivity.
  - rewrite closed_cons, E in Hc. simpl app.
    rewrite !process_skip by exact E. now rewrite IH.
  - rewrite closed_cons, E in Hc. apply andb_true_iff in Hc as [Hd Hc].
    apply Z.leb_le in Hd. simpl app. rewrite !process_span by exact E.
    unfold span_body, span_rest in *.
    rewrite (scan_app_closed rest b 1 Hd). cbn [fst snd].
    rewrite IH by exact Hc. simpl. now rewrite <- app_assoc.
Qed.

Lemma process_split_nonempty (s : string) : process (Str.split nl s) <> [].
Proof.
  intros H. apply (f_equal (@length string)) in H.
  rewrite process_length in H. pose proof (split_nonempty nl s) as Hne.
  destruct (Str.split nl s); [congruence | discriminate H].
Qed.

End MoreLoopFacts.

(* ================================================================== *)
(** ** The properties of the specification *)

Section Claims.

Import Samples ReviewSamples.

Lemma sapp_length (s t : string) :
  String.length (s ++ t) = String.length s + String.length t.
Proof. induction s as [|a s IH]; simpl; [reflexivity | now rewrite IH]. Qed.

(** Where the line holds "fn " the marker gate is exact: the signature
    changes exactly when the body holds the marker and the line does not
    hold "async fn". *)
Lemma marker_gate (line : string) (body : list string) :
  Str.contains "fn " line = true ->
  (new_signature line body <> line <->
   Str.contains await_marker (body_text body) = true /\
   Str.contains async_fn line = false).
Proof.
  intros Hfn. split.
  - intros Hne.
    destruct (new_signature_cases line body) as [H|(Ha & Hq & _)];
      [congruence | auto].
  - intros [Ha Hq] Heq. unfold new_signature in Heq. rewrite Ha, Hq in Heq.
    simpl in Heq.
    destruct (replace_first_cases "fn " "async fn " line)
      as [[Hc _]|(pre & post & Hl & Hr & _)]; [congruence|].
    rewrite Hr in Heq. rewrite Hl in Heq.
    apply (f_equal String.length) in Heq.
    rewrite !sapp_length in Heq. simpl in Heq. lia.
Qed.

(** Only a line for which the gate holds is ever changed. *)
Lemma marker_gate_only_if (line : string) (body : list string) :
  new_signature line body <> line ->
  Str.contains await_marker (body_text body) = true /\
  Str.contains async_fn line = false.
Proof.
  intros Hne.
  destruct (new_signature_cases line body) as [H|(Ha & Hq & _)];
    [congruence | auto].
Qed.

(** C1: the signature of a recognized span is modified if and only if its
    body holds ".await" and the line does not hold "async fn".  The code
    misses the case of a keyword followed by whitespace other than a space:
    for [tab_file] the pattern matches, the body holds the marker, the line
    holds no "async fn", and still the run returns the file unchanged. *)
Theorem C1_tab_after_fn_not_qualified :
  is_fn_start tab_sig = true /\
  Str.contains await_marker (body_text (tl tab_file)) = true /\
  Str.contains async_fn tab_sig = false /\
  new_signature tab_sig (span_body (tl tab_file)) = tab_sig /\
  fix_async_functions (text tab_file) = Done (text tab_file).
Proof. vm_compute. repeat split; reflexivity. Qed.

(** C2, as stated, fails: on [nested_file] the first run qualifies the outer
    function only, and a second run qualifies the inner one too. *)
Lemma C2_second_run_differs :
  exists once twice,
    fix_async_functions (text nested_file) = Done once /\
    fix_async_functions once = Done twice /\
    twice <> once.
Proof.
  exists (text nested_once), (text nested_twice).
  split; [vm_compute; reflexivity|]. split; [vm_compute; reflexivity|].
  vm_compute. discriminate.
Qed.

(** C2 (amended): for every input, a line that already holds "async fn" is
    never changed, so no line is qualified twice; and when no line taken
    into a span is itself a signature line, running the rewriter on its own
    output returns that output. *)
Theorem C2_idempotent_without_nested (content : string) :
  exists out,
    fix_async_functions content = Done out /\
    (forall k,
       Str.contains async_fn (nth k (Str.split nl content) ""%string) = true ->
       nth k (Str.split nl out) ""%string =
       nth k (Str.split nl content) ""%string) /\
    (no_nested (Str.split nl content) = true ->
     fix_async_functions out = Done out).
Proof.
  exists (fix_async content).
  split; [apply fix_async_functions_done|]. split.
  - intros k Hk. rewrite split_fix_async.
    destruct (process_nth (Str.split nl content) k) as [H|(_ & Hq & _)];
      [exact H | congruence].
  - intros Hnn. rewrite fix_async_functions_done. f_equal.
    unfold fix_async at 1. rewrite split_fix_async.
    rewrite process_idempotent by exact Hnn. reflexivity.
Qed.

Lemma C2_idempotent_without_nested_witness :
  no_nested (Str.split nl (text simple_file)) = true /\
  fix_async_functions (text simple_file) = Done (text simple_out) /\
  fix_async_functions (text simple_out) = Done (text simple_out).
Proof.
  assert (Hnn : no_nested (Str.split nl (text simple_file)) = true)
    by (vm_compute; reflexivity).
  split; [exact Hnn|].
  destruct (C2_idempotent_without_nested (text simple_file))
    as (out & H1 & _ & H2).
  specialize (H2 Hnn).
  assert (E : fix_async_functions (text simple_file) = Done (text simple_out))
    by (vm_compute; reflexivity).
  rewrite E in H1. injection H1 as <-. split; [exact E | exact H2].
Defined.

(** C3, as stated, fails: after the signature of [below_zero_file] the
    counter goes from 1 to -1 on the first line and is zero only after the
    second, yet the span ends with the first line, so the marker on the
    second line is outside the span and the signature is left alone. *)
Lemma C3_span_closes_below_zero :
  is_fn_start "fn f() {" = true /\
  spec_span_end 1 below_zero_rest = Some 1 /\
  span_body below_zero_rest <> firstn 2 below_zero_rest /\
  span_body below_zero_rest = firstn 1 below_zero_rest /\
  depth_after 1 (span_body below_zero_rest) = (-1)%Z /\
  fix_async_functions (text below_zero_file) = Done (text below_zero_file).
Proof.
  vm_compute. repeat split; try reflexivity. discriminate.
Qed.

(** C3 (amended): for every signature line the outer loop reaches, the span
    is the signature line and the following lines up to and including the
    first one after which the running brace depth (1 on the signature line,
    plus one per opening and minus one per closing brace of each later
    line) is zero or negative, or up to the last line of the input when the
    depth stays positive; a line is taken only while the depth before it is
    positive, so inner brace pairs do not end the span early. *)
Theorem C3_span_integrity (ls : list string) (line : string) (rest : list string) :
  cursor ls (line :: rest) ->
  is_fn_start line = true ->
  rest = span_body rest ++ span_rest rest /\
  (forall k, k < length (span_body rest) ->
             (0 < depth_after 1 (firstn k rest))%Z) /\
  (span_rest rest <> [] -> (depth_after 1 (span_body rest) <= 0)%Z) /\
  exists pre,
    length pre + length (line :: rest) = length ls /\
    process ls =
    pre ++ new_signature line (span_body rest)
        :: span_body rest ++ process (span_rest rest).
Proof.
  intros Hcur Hstart.
  split; [symmetry; apply span_split|].
  split; [intros k Hk; now apply scan_prefix_open|].
  split; [apply scan_end_closed|].
  destruct (cursor_process _ _ Hcur) as (pre & Hp & Hl).
  exists pre. split; [exact Hl|].
  rewrite Hp, process_span by exact Hstart. reflexivity.
Qed.

Lemma C3_span_integrity_witness :
  span_body blocks_rest = firstn 2 blocks_rest /\
  (depth_after 1 (span_body blocks_rest) <= 0)%Z /\
  exists pre,
    length pre + length ("fn f() {"%string :: blocks_rest) = length blocks_file /\
    process blocks_file =
    pre ++ new_signature "fn f() {" (span_body blocks_rest)
        :: span_body blocks_rest ++ process (span_rest blocks_rest).
Proof.
  assert (Hcur : cursor blocks_file ("fn f() {"%string :: blocks_rest))
    by (apply cursor_skip; [vm_compute; reflexivity | apply cursor_here]).
  assert (Hstart : is_fn_start "fn f() {" = true) by (vm_compute; reflexivity).
  destruct (C3_span_integrity blocks_file "fn f() {" blocks_rest Hcur Hstart)
    as (_ & _ & Hend & Hout).
  split; [vm_compute; reflexivity|].
  split; [apply Hend; vm_compute; discriminate | exact Hout].
Defined.

(** C4: the output has one line per input line, in the same order; each
    output line is the input line at the same position, unless that input
    line is a signature line without "async fn", in which case it may be
    that line with the edit applied. *)
Theorem C4_verbatim_outside_edit (content : string) :
  exists out,
    fix_async_functions content = Done out /\
    length (Str.split nl out) = length (Str.split nl content) /\
    forall k,
      nth k (Str.split nl out) ""%string = nth k (Str.split nl content) ""%string \/
      (is_fn_start (nth k (Str.split nl content) ""%string) = true /\
       Str.contains async_fn (nth k (Str.split nl content) ""%string) = false /\
       nth k (Str.split nl out) ""%string =
       Str.replace_first "fn " "async fn " (nth k (Str.split nl content) ""%string)).
Proof.
  exists (fix_async content).
  split; [apply fix_async_functions_done|].
  rewrite split_fix_async. split; [apply process_length | apply process_nth].
Qed.

(** C5: a rewrite only inserts the qualifier immediately before the keyword
    "fn".  The code misses the case of a keyword followed by whitespace
    other than a space: in [tab_ret_file] the edit lands on the later
    "fn " of the return type, not before the keyword. *)
Theorem C5_qualifier_lands_after_keyword :
  is_fn_start tab_ret_sig = true /\
  fix_async_functions (text tab_ret_file) = Done (text tab_ret_out) /\
  nth 0 tab_ret_out ""%string <> ("async " ++ tab_ret_sig)%string.
Proof.
  split; [vm_compute; reflexivity|]. split; [vm_compute; reflexivity|].
  vm_compute. discriminate.
Qed.

(** C6, as stated, fails: in [const_generic_file] the brace that opens the
    body is on the line after the signature, yet the signature line matches
    the pattern through the brace of its return type, and the run qualifies
    it. *)
Lemma C6_other_brace_completes_pattern :
  nth 1 const_generic_file ""%string = "{"%string /\
  is_fn_start (nth 0 const_generic_file ""%string) = true /\
  fix_async_functions (text const_generic_file) = Done (text const_generic_out) /\
  text const_generic_out <> text const_generic_file.
Proof.
  split; [reflexivity|]. split; [vm_compute; reflexivity|].
  split; [vm_compute; reflexivity|]. vm_compute. discriminate.
Qed.

(** C6 (amended): a line that holds no opening brace at all never starts a
    function, and the output line at its position is that line unchanged,
    whatever the following lines hold. *)
Theorem C6_brace_on_same_line (content : string) (k : nat) :
  Str.count_char open_brace (nth k (Str.split nl content) ""%string) = 0%Z ->
  is_fn_start (nth k (Str.split nl content) ""%string) = false /\
  exists out,
    fix_async_functions content = Done out /\
    nth k (Str.split nl out) ""%string = nth k (Str.split nl content) ""%string.
Proof.
  intros Hno.
  assert (Hns : is_fn_start (nth k (Str.split nl content) ""%string) = false).
  { destruct (is_fn_start (nth k (Str.split nl content) ""%string)) eqn:E;
      [|reflexivity].
    apply is_fn_start_brace in E. lia. }
  split; [exact Hns|]. exists (fix_async content).
  split; [apply fix_async_functions_done|].
  rewrite split_fix_async.
  destruct (process_nth (Str.split nl content) k) as [H|(Hs & _)];
    [exact H | congruence].
Qed.

Lemma C6_brace_on_same_line_witness :
  is_fn_start (nth 0 (Str.split nl (text brace_below_file)) ""%string) = false /\
  exists out,
    fix_async_functions (text brace_below_file) = Done out /\
    nth 0 (Str.split nl out) ""%string =
    nth 0 (Str.split nl (text brace_below_file)) ""%string.
Proof.
  apply (C6_brace_on_same_line (text brace_below_file) 0).
  vm_compute. reflexivity.
Defined.






(** C9: a line that reads, after indentation, "async fn" or "pub async fn"
    never matches the signature pattern; it is copied and the scan goes on
    with the very next line, so that a signature line nested in the body of
    an async function is matched by itself and can be rewritten, as in
    [async_outer_file]. *)
Theorem C9_async_signature_not_matched
  (ws ws' tail : string) (rest : list string) :
  all_space ws = true ->
  all_space ws' = true ->
  is_fn_start (ws ++ "async fn" ++ tail) = false /\
  is_fn_start (ws ++ "pub" ++ ws' ++ "async fn" ++ tail) = false /\
  process ((ws ++ "async fn" ++ tail)%string :: rest) =
    (ws ++ "async fn" ++ tail)%string :: process rest /\
  process ((ws ++ "pub" ++ ws' ++ "async fn" ++ tail)%string :: rest) =
    (ws ++ "pub" ++ ws' ++ "async fn" ++ tail)%string :: process rest /\
  fix_async_functions (text async_outer_file) = Done (text async_outer_out).
Proof.
  intros Hws Hws'.
  assert (H1 : is_fn_start (ws ++ "async fn" ++ tail) = false)
    by exact (async_line_not_start ws (" fn" ++ tail) Hws).
  assert (H2 : is_fn_start (ws ++ "pub" ++ ws' ++ "async fn" ++ tail) = false)
    by exact (pub_async_line_not_start ws ws' (" fn" ++ tail) Hws Hws').
  split; [exact H1|]. split; [exact H2|].
  split; [now apply process_skip|]. split; [now apply process_skip|].
  vm_compute. reflexivity.
Qed.

Lemma C9_async_signature_not_matched_witness :
  is_fn_start "pub async fn outer() {" = false /\
  process async_outer_file = "pub async fn outer() {"%string :: process async_outer_rest /\
  nth 0 (process async_outer_rest) ""%string = "    async fn inner() {"%string.
Proof.
  destruct (C9_async_signature_not_matched "" " " " outer() {" async_outer_rest
              eq_refl eq_refl) as (_ & H2 & _ & H4 & _).
  split; [exact H2|]. split; [exact H4|]. vm_compute. reflexivity.
Defined.

(** C10: when the brace depth stays positive to the end of the input, the
    span takes every remaining line, the marker test and the edit are
    applied to it, and the run finishes without error; every run, on any
    text, finishes with a result. *)
Theorem C10_unterminated_span_runs_to_end
  (ls : list string) (line : string) (rest : list string) :
  cursor ls (line :: rest) ->
  is_fn_start line = true ->
  (forall k, k <= length rest -> (0 < depth_after 1 (firstn k rest))%Z) ->
  span_body rest = rest /\
  span_rest rest = [] /\
  (exists pre,
     length pre + length (line :: rest) = length ls /\
     process ls = pre ++ new_signature line rest :: rest) /\
  main_loop (S (length ls)) ls 0 [] = Done (process ls) /\
  forall content, exists out, fix_async_functions content = Done out.
Proof.
  intros Hcur Hstart Hopen.
  assert (Hscan : scan 1 rest = (rest, [])).
  { apply scan_all_open. intros k Hk. apply Hopen. lia. }
  unfold span_body, span_rest. rewrite Hscan. cbn [fst snd].
  split; [reflexivity|]. split; [reflexivity|]. split; [|split].
  - destruct (cursor_process _ _ Hcur) as (pre & Hp & Hl).
    exists pre. split; [exact Hl|].
    rewrite Hp, process_span by exact Hstart.
    unfold span_body, span_rest. rewrite Hscan. cbn [fst snd].
    now rewrite process_nil, app_nil_r.
  - rewrite main_loop_process by lia. reflexivity.
  - intros content. exists (fix_async content). apply fix_async_functions_done.
Qed.

Lemma C10_unterminated_span_runs_to_end_witness :
  span_body open_rest = open_rest /\
  process open_file = "async fn f() {"%string :: open_rest /\
  main_loop (S (length open_file)) open_file 0 [] = Done (process open_file).
Proof.
  assert (Hopen : forall k, k <= length open_rest ->
                  (0 < depth_after 1 (firstn k open_rest))%Z).
  { intros k Hk. destruct k as [|[|[|k]]]; [reflexivity..|simpl in Hk; lia]. }
  destruct (C10_unterminated_span_runs_to_end open_file "fn f() {" open_rest
              (cursor_here _) eq_refl Hopen) as (Hb & _ & _ & Hrun & _).
  split; [exact Hb|]. split; [vm_compute; reflexivity | exact Hrun].
Defined.

End Claims.

(* ================================================================== *)
(** ** Further properties of the rewriter *)

Section Extras.

Import Samples MoreSamples ExtraSamples.

(** X1: a text that nowhere holds ".await" comes back exactly as it went
    in, its last newline included. *)
Theorem X1_text_without_marker_unchanged (content : string) :
  Str.contains await_marker content = false ->
  fix_async_functions content = Done content.
Proof.
  intros H. rewrite fix_async_functions_done. f_equal. unfold fix_async.
  rewrite process_no_marker; [apply (join_split nl)|].
  apply Forall_forall. intros l Hin. apply not_true_is_false. intros Hl.
  destruct (split_piece nl content l Hin) as (pre & post & E).
  rewrite E in H. rewrite contains_piece in H by exact Hl. discriminate.
Qed.

Lemma X1_text_without_marker_unchanged_witness :
  fix_async_functions plain_text = Done plain_text.
Proof.
  apply (X1_text_without_marker_unchanged plain_text).
  vm_compute. reflexivity.
Defined.

(** X2: splitting a text at its newlines and joining the pieces with
    newlines gives the text back; the pieces are one more than the
    newlines of the text, so there is always at least one. *)
Theorem X2_split_join_round_trip (content : string) :
  Str.join nl_s (Str.split nl content) = content /\
  length (Str.split nl content) = S (Z.to_nat (Str.count_char nl content)).
Proof.
  split; [apply (join_split nl)|].
  induction content as [|a s IH]; [reflexivity|].
  cbn [Str.split Str.count_char]. pose proof (count_char_nonneg nl s).
  destruct (Ascii.eqb a nl).
  - simpl length. rewrite IH. rewrite Z2Nat.inj_add by lia. reflexivity.
  - pose proof (split_nonempty nl s).
    destruct (Str.split nl s) as [|l ls]; [congruence|].
    simpl length in *. rewrite IH. reflexivity.
Qed.

(** X3: the inner loop always finishes, and the marker test on the text it
    gathers in [fn_body] is the same as asking whether some line after the
    signature line in [fn_lines] holds the marker: the marker cannot sit
    across two lines. *)
Theorem X3_marker_test_is_per_line (lines : list string) (i : nat) (line : string) :
  exists st,
    span_loop (S (length lines)) lines (mk_span (i + 1) 1 [line] "") = Done st /\
    Str.contains await_marker (sp_fn_body st) =
    existsb (Str.contains await_marker) (tl (sp_fn_lines st)).
Proof.
  destruct (span_loop_scan lines (S (length lines))
              (mk_span (i + 1) 1 [line] "")) as [bc' Hrun]; [simpl; lia|].
  eexists. split; [exact Hrun|].
  cbn [sp_fn_body sp_fn_lines sp_j sp_brace_count app tl append].
  apply body_text_marker.
Qed.

(** X4: when any line of a span's body holds the marker, be it in a comment
    or on the closing line, and the signature line holds "fn ", the
    signature line in the output holds "async fn". *)
Theorem X4_marker_line_qualifies
  (ls : list string) (line : string) (rest : list string) (l : string) :
  cursor ls (line :: rest) ->
  is_fn_start line = true ->
  In l (span_body rest) ->
  Str.contains await_marker l = true ->
  Str.contains "fn " line = true ->
  Str.contains async_fn
    (nth (length ls - length (line :: rest)) (process ls) ""%string) = true.
Proof.
  intros Hcur Hstart Hin Hl Hfn.
  destruct (cursor_process _ _ Hcur) as (pre & Hp & Hlen).
  replace (length ls - length (line :: rest)) with (length pre) by lia.
  rewrite Hp, process_span by exact Hstart.
  rewrite app_nth2, Nat.sub_diag by lia. cbn [nth].
  assert (Hm : Str.contains await_marker (body_text (span_body rest)) = true).
  { rewrite body_text_marker. apply existsb_exists. now exists l. }
  unfold new_signature. rewrite Hm.
  destruct (Str.contains async_fn line) eqn:Ea; [exact Ea|].
  now apply replace_first_async.
Qed.

Lemma X4_marker_line_qualifies_witness :
  nth 1 (process comment_file) ""%string = "pub async fn g() {"%string /\
  Str.contains async_fn (nth 1 (process comment_file) ""%string) = true.
Proof.
  split; [vm_compute; reflexivity|].
  apply (X4_marker_line_qualifies comment_file "pub fn g() {"
           ["    h();"; "} // was: h().await"]%string "} // was: h().await").
  - apply cursor_skip; [vm_compute; reflexivity | apply cursor_here].
  - vm_compute. reflexivity.
  - vm_compute. right. left. reflexivity.
  - vm_compute. reflexivity.
  - vm_compute. reflexivity.
Defined.

(** X5: every line the run changes is the input line with "async " put in
    front of the leftmost "fn " of that line; nothing is removed and
    nothing else is added. *)
Theorem X5_edit_is_one_insertion (content : string) :
  exists out,
    fix_async_functions content = Done out /\
    forall k,
      nth k (Str.split nl out) ""%string = nth k (Str.split nl content) ""%string \/
      exists pre post,
        nth k (Str.split nl content) ""%string = (pre ++ "fn " ++ post)%string /\
        nth k (Str.split nl out) ""%string = (pre ++ "async fn " ++ post)%string /\
        forall pre' post',
          nth k (Str.split nl content) ""%string = (pre' ++ "fn " ++ post')%string ->
          String.length pre <= String.length pre'.
Proof.
  exists (fix_async content). split; [apply fix_async_functions_done|].
  intros k. rewrite split_fix_async.
  destruct (process_nth (Str.split nl content) k) as [H|(_ & _ & H)];
    [now left|].
  rewrite H.
  destruct (replace_first_cases "fn " "async fn "
              (nth k (Str.split nl content) ""%string))
    as [[_ Hr]|(pre & post & Hs & Hr & Hmin)]; [now left|].
  right. exists pre, post. auto.
Qed.

(** X6: for a signature line whose keyword is followed by a space, the
    rewrite puts the qualifier right before the keyword and keeps the
    indentation, the "pub" and the rest; the line written no longer
    matches the signature pattern. *)
Theorem X6_qualified_line_not_rematched
  (ws pub tail : string) (body : list string) :
  all_space ws = true ->
  (pub = ""%string \/
   exists k' ws', pub = ("pub" ++ String k' ws')%string /\
                  is_space k' = true /\ all_space ws' = true) ->
  Str.contains await_marker (body_text body) = true ->
  Str.contains async_fn (ws ++ pub ++ "fn " ++ tail) = false ->
  new_signature (ws ++ pub ++ "fn " ++ tail) body =
    (ws ++ pub ++ "async fn " ++ tail)%string /\
  is_fn_start (ws ++ pub ++ "async fn " ++ tail) = false.
Proof.
  intros Hws Hpub Hm Hq. split.
  - unfold new_signature. rewrite Hm, Hq. cbn [negb].
    now apply insertion_before_keyword.
  - destruct Hpub as [-> | (k' & ws' & -> & Hk' & Hws')].
    + exact (async_line_not_start ws (" fn " ++ tail) Hws).
    + rewrite !sapp_assoc.
      apply (pub_async_line_not_start ws (String k' ws') (" fn " ++ tail) Hws).
      unfold all_space in *. cbn [all_in in_cset]. now rewrite Hk', Hws'.
Qed.

Lemma X6_qualified_line_not_rematched_witness :
  is_fn_start indented_pub_sig = true /\
  new_signature indented_pub_sig ["x.await"; "}"]%string =
    "    pub async fn f() {"%string /\
  is_fn_start "    pub async fn f() {" = false.
Proof.
  split; [vm_compute; reflexivity|].
  apply (X6_qualified_line_not_rematched "    " "pub " "f() {"
           ["x.await"; "}"]%string).
  - vm_compute. reflexivity.
  - right. exists " "%char, ""%string. repeat split; reflexivity.
  - vm_compute. reflexivity.
  - vm_compute. reflexivity.
Defined.

(** X7: the test at the head of the outer loop succeeds exactly when some
    prefix of the line is a word of the signature pattern. *)
Theorem X7_match_is_prefix_in_language (line : string) :
  is_fn_start line = true <->
  exists p q, line = (p ++ q)%string /\ lang fn_pattern p.
Proof. apply re_match_spec. Qed.

(** X8: what follows a matched signature on its line has no say: a line
    that starts a function still does so with any text appended. *)
Theorem X8_match_ignores_rest_of_line (line extra : string) :
  is_fn_start line = true -> is_fn_start (line ++ extra) = true.
Proof.
  intros H. apply re_match_spec in H as (p & q & -> & H).
  apply re_match_spec. exists p, (q ++ extra)%string.
  split; [apply sapp_assoc | exact H].
Qed.

Lemma X8_match_ignores_rest_of_line_witness :
  is_fn_start ("fn f() {" ++ " x.await } // async fn") = true.
Proof.
  apply (X8_match_ignores_rest_of_line "fn f() {" " x.await } // async fn").
  vm_compute. reflexivity.
Defined.

(** X9: a line whose first visible character is neither f nor p never
    starts a function: comment lines, attributes, and signatures that
    begin with another keyword are passed by. *)
Theorem X9_first_visible_character (ws : string) (c : ascii) (tail : string) :
  all_space ws = true ->
  is_space c = false ->
  c <> "f"%char ->
  c <> "p"%char ->
  is_fn_start (ws ++ String c tail) = false.
Proof.
  intros Hws Hc Hf Hp.
  destruct (is_fn_start (ws ++ String c tail)) eqn:E; [|reflexivity].
  exfalso.
  apply is_fn_start_head in E as (ws2 & pub & k & t & E & Hws2 & Hk & Hpub).
  destruct Hpub as [-> | (k' & ws' & -> & _ & _)]; simpl in E;
    apply first_visible in E as (_ & E & _); auto; congruence.
Qed.

Lemma X9_first_visible_character_witness :
  is_fn_start "  unsafe fn f() {" = false.
Proof.
  apply (X9_first_visible_character "  " "u" "nsafe fn f() {");
    [reflexivity | reflexivity | discriminate | discriminate].
Defined.

(** X10: "pub" counts only when whitespace follows it: a line that reads
    "pub" and then a visible character, as in "pub(crate) fn", never starts
    a function. *)
Theorem X10_pub_needs_whitespace (ws : string) (c : ascii) (tail : string) :
  all_space ws = true ->
  is_space c = false ->
  is_fn_start (ws ++ "pub" ++ String c tail) = false.
Proof.
  intros Hws Hc.
  destruct (is_fn_start (ws ++ "pub" ++ String c tail)) eqn:E; [|reflexivity].
  exfalso.
  apply is_fn_start_head in E as (ws2 & pub & k & t & E & Hws2 & Hk & Hpub).
  destruct Hpub as [-> | (k' & ws' & -> & Hk' & _)]; simpl in E;
    apply first_visible in E as (_ & _ & E); auto.
  - discriminate E.
  - injection E as E _. congruence.
Qed.

Lemma X10_pub_needs_whitespace_witness :
  is_fn_start "pub(crate) fn f() {" = false.
Proof.
  apply (X10_pub_needs_whitespace "" "(" "crate) fn f() {"); reflexivity.
Defined.

(** X11: a text all of whose spans are closed is rewritten on its own:
    whatever text follows it after a newline, the output is the output for
    the first text, a newline, and the output for the second. *)
Theorem X11_closed_text_composes (a b : string) :
  closed (Str.split nl a) = true ->
  exists oa ob,
    fix_async_functions a = Done oa /\
    fix_async_functions b = Done ob /\
    fix_async_functions (a ++ nl_s ++ b) = Done (oa ++ nl_s ++ ob)%string.
Proof.
  intros Hc. exists (fix_async a), (fix_async b).
  rewrite !fix_async_functions_done. split; [reflexivity|].
  split; [reflexivity|]. f_equal. unfold fix_async.
  change (a ++ nl_s ++ b)%string with (a ++ String nl b)%string.
  rewrite split_app_nl, process_app_closed by exact Hc.
  apply join_app; apply process_split_nonempty.
Qed.

Lemma X11_closed_text_composes_witness :
  fix_async_functions (first_text ++ nl_s ++ second_text) =
  Done (text simple_out ++ nl_s
        ++ text ["async fn k() {"; "    y.await;"; "}"])%string.
Proof.
  assert (Hc : closed (Str.split nl first_text) = true)
    by (vm_compute; reflexivity).
  destruct (X11_closed_text_composes first_text second_text Hc)
    as (oa & ob & Ha & Hb & Hab).
  assert (Ea : fix_async_functions first_text = Done (text simple_out))
    by (vm_compute; reflexivity).
  assert (Eb : fix_async_functions second_text =
               Done (text ["async fn k() {"; "    y.await;"; "}"]))
    by (vm_compute; reflexivity).
  rewrite Ea in Ha. rewrite Eb in Hb.
  injection Ha as <-. injection Hb as <-. exact Hab.
Defined.

(** X12: started right after a signature line at index [i], the inner loop
    finishes with its index [j] beyond [i] and not beyond the end of the
    input, and [fn_lines] holds exactly the lines from [i] up to [j]: the
    outer loop always moves forward and never reads past the last line. *)
Theorem X12_inner_loop_stays_in_bounds
  (lines : list string) (i : nat) (line : string) :
  nth_error lines i = Some line ->
  exists st,
    span_loop (S (length lines)) lines (mk_span (i + 1) 1 [line] "") = Done st /\
    i < sp_j st <= length lines /\
    sp_fn_lines st = firstn (sp_j st - i) (skipn i lines).
Proof.
  intros Hline.
  assert (Hi : i < length lines) by (apply nth_error_Some; congruence).
  destruct (skipn_nth_error lines i Hi) as (x & Hx & Hskip).
  assert (x = line) by congruence. subst x.
  destruct (span_loop_scan lines (S (length lines))
              (mk_span (i + 1) 1 [line] "")) as [bc' Hrun]; [simpl; lia|].
  eexists. split; [exact Hrun|].
  cbn [sp_j sp_brace_count sp_fn_lines].
  rewrite Nat.add_1_r.
  pose proof (scan_app (skipn (S i) lines) 1) as Happ.
  set (body := fst (scan 1 (skipn (S i) lines))) in *.
  set (more := snd (scan 1 (skipn (S i) lines))) in *.
  assert (Hlen : length body + length more = length lines - S i).
  { rewrite <- length_app, Happ. apply length_skipn. }
  split; [lia|].
  rewrite Hskip, <- Happ.
  replace (S i + length body - i) with (S (length body)) by lia.
  cbn [firstn app]. rewrite firstn_app, firstn_all, Nat.sub_diag.
  simpl. now rewrite app_nil_r.
Qed.

Lemma X12_inner_loop_stays_in_bounds_witness :
  exists st,
    span_loop (S (length blocks_file)) blocks_file
      (mk_span (1 + 1) 1 ["fn f() {"%string] "") = Done st /\
    1 < sp_j st <= length blocks_file /\
    sp_fn_lines st = firstn (sp_j st - 1) (skipn 1 blocks_file).
Proof.
  apply (X12_inner_loop_stays_in_bounds blocks_file 1 "fn f() {").
  reflexivity.
Defined.

End Extras.
